(** * cod-node: the call-of-duty-api client (src/index.ts)

    A shallow embedding of the client module: the session globals, the two
    login operations, platform validation and gamertag normalisation, the
    endpoint templates, the three request dispatchers and the per-title
    adapters, followed by the properties established about them.

    Conventions of the embedding.
    - A JavaScript string is the list of its UTF-16 code units.
    - Header objects are finite maps from header name to value.
    - The module-level [let] variables form one record, threaded through
      every operation; a thrown exception keeps the mutations made before it.
    - [request] of undici is the boundary to the outside: an oracle answers
      each call, and every call is appended to a trace.
    - [console.log], [console.time] and [console.error] are not modelled:
      they influence neither a returned value nor a module variable. *)

From Stdlib Require Import ZArith NArith Ascii String List Bool Lia DecimalString.
From stdpp Require Import base tactics option list strings gmap fin_maps.

Local Open Scope N_scope.

(** ** JavaScript strings *)

Module Js.

(** A string value: its UTF-16 code units, each below [0x10000]. *)
Definition jsstring : Type := list N.

(** A source literal made of ASCII characters. *)
Definition lit (s : string) : jsstring :=
  map N_of_ascii (list_ascii_of_string s).

(** Truthiness of a string: every string but the empty one. *)
Definition truthy (s : jsstring) : bool :=
  match s with
  | [] => false
  | _ :: _ => true
  end.

Definition eqb (a b : jsstring) : bool := bool_decide (a = b).

(** [WhiteSpace] and [LineTerminator] of ECMA-262: the code units that
    [String.prototype.trim] strips and that [StringToNumber] skips. *)
Definition isStrWhiteSpaceChar (c : N) : bool :=
  (c =? 0x09) || (c =? 0x0A) || (c =? 0x0B) || (c =? 0x0C) || (c =? 0x0D)
  || (c =? 0x20) || (c =? 0xA0) || (c =? 0x1680)
  || ((0x2000 <=? c) && (c <=? 0x200A))
  || (c =? 0x2028) || (c =? 0x2029) || (c =? 0x202F) || (c =? 0x205F)
  || (c =? 0x3000) || (c =? 0xFEFF).

Fixpoint trimStart (s : jsstring) : jsstring :=
  match s with
  | [] => []
  | c :: r => if isStrWhiteSpaceChar c then trimStart r else s
  end.

Definition trimEnd (s : jsstring) : jsstring := rev (trimStart (rev s)).

(** [String.prototype.trim]. *)
Definition trim (s : jsstring) : jsstring := trimEnd (trimStart s).

(** *** [Number(string)]: which strings convert to NaN

    [StringToNumber] yields NaN exactly when the text is not a
    [StringNumericLiteral]; every literal converts to a number or to an
    infinity.  Only that distinction is observed by the client. *)

Definition isDigit (c : N) : bool := (0x30 <=? c) && (c <=? 0x39).
Definition isHexDigit (c : N) : bool :=
  isDigit c || ((0x41 <=? c) && (c <=? 0x46)) || ((0x61 <=? c) && (c <=? 0x66)).
Definition isOctalDigit (c : N) : bool := (0x30 <=? c) && (c <=? 0x37).
Definition isBinaryDigit (c : N) : bool := (c =? 0x30) || (c =? 0x31).

(** The longest prefix satisfying [p], and what follows it. *)
Fixpoint span (p : N → bool) (s : jsstring) : jsstring * jsstring :=
  match s with
  | [] => ([], [])
  | c :: r =>
      if p c then let '(a, b) := span p r in (c :: a, b) else ([], s)
  end.

(** One or more characters, all satisfying [p]. *)
Definition some_all (p : N → bool) (s : jsstring) : bool :=
  truthy s && forallb p s.

(** Nothing, or [ExponentPart]: e or E, an optional sign, digits. *)
Definition isExponentPartOpt (s : jsstring) : bool :=
  match s with
  | [] => true
  | c :: r =>
      ((c =? 0x65) || (c =? 0x45)) &&
      match r with
      | d :: r' =>
          if (d =? 0x2B) || (d =? 0x2D) then some_all isDigit r'
          else some_all isDigit r
      | [] => false
      end
  end.

(** [StrUnsignedDecimalLiteral]. *)
Definition isStrUnsignedDecimalLiteral (s : jsstring) : bool :=
  eqb s (lit "Infinity") ||
  let '(ip, r) := span isDigit s in
  match r with
  | c :: r1 =>
      if c =? 0x2E then
        let '(fp, r2) := span isDigit r1 in
        (truthy ip || truthy fp) && isExponentPartOpt r2
      else truthy ip && isExponentPartOpt r
  | [] => truthy ip
  end.

(** [StrDecimalLiteral]: an optional sign before the unsigned literal. *)
Definition isStrDecimalLiteral (s : jsstring) : bool :=
  match s with
  | c :: r =>
      if (c =? 0x2B) || (c =? 0x2D) then isStrUnsignedDecimalLiteral r
      else isStrUnsignedDecimalLiteral s
  | [] => false
  end.

(** [NonDecimalIntegerLiteral]: 0x, 0o or 0b and digits of that base. *)
Definition isNonDecimalIntegerLiteral (s : jsstring) : bool :=
  match s with
  | z :: p :: r =>
      (z =? 0x30) &&
      (if (p =? 0x78) || (p =? 0x58) then some_all isHexDigit r
       else if (p =? 0x6F) || (p =? 0x4F) then some_all isOctalDigit r
       else if (p =? 0x62) || (p =? 0x42) then some_all isBinaryDigit r
       else false)
  | _ => false
  end.

(** [StringNumericLiteral]: white space alone (the value 0), or a numeric
    literal with white space around it. *)
Definition isStringNumericLiteral (s : jsstring) : bool :=
  match trim s with
  | [] => true
  | t => isStrDecimalLiteral t || isNonDecimalIntegerLiteral t
  end.

(** [isNaN(Number(s))]. *)
Definition isNaN_Number (s : jsstring) : bool := negb (isStringNumericLiteral s).

(** *** [encodeURIComponent] *)

(** What the client can throw: [new Error(message)] of its own, and the
    exceptions of the run-time it calls into. *)
Inductive exn : Type :=
  | Error (message : jsstring)
  | URIError
  | SyntaxError
  | TypeError
  | NetworkError.

(** The completion of an evaluation: a value, or a thrown exception. *)
Inductive completion (A : Type) : Type :=
  | Normal (a : A)
  | Throw (e : exn).
Arguments Normal {A} a.
Arguments Throw {A} e.

#[export] Instance completion_ret : MRet completion := λ A a, Normal a.
#[export] Instance completion_bind : MBind completion := λ A B f c,
  match c with
  | Normal a => f a
  | Throw e => Throw e
  end.

Definition isUriUnescaped (c : N) : bool :=
  ((0x41 <=? c) && (c <=? 0x5A)) || ((0x61 <=? c) && (c <=? 0x7A)) || isDigit c
  || (c =? 0x2D) || (c =? 0x5F) || (c =? 0x2E) || (c =? 0x21) || (c =? 0x7E)
  || (c =? 0x2A) || (c =? 0x27) || (c =? 0x28) || (c =? 0x29).

Definition hexDigitUpper (d : N) : N :=
  if d <? 10 then 0x30 + d else 0x41 + (d - 10).

(** One octet as a percent sign and two upper-case hexadecimal digits. *)
Definition percentOctet (b : N) : jsstring :=
  [0x25; hexDigitUpper (N.shiftr b 4); hexDigitUpper (N.land b 0xF)].

(** The UTF-8 octets of a code point. *)
Definition utf8 (v : N) : list N :=
  if v <? 0x80 then [v]
  else if v <? 0x800 then
    [N.lor 0xC0 (N.shiftr v 6); N.lor 0x80 (N.land v 0x3F)]
  else if v <? 0x10000 then
    [N.lor 0xE0 (N.shiftr v 12); N.lor 0x80 (N.land (N.shiftr v 6) 0x3F);
     N.lor 0x80 (N.land v 0x3F)]
  else
    [N.lor 0xF0 (N.shiftr v 18); N.lor 0x80 (N.land (N.shiftr v 12) 0x3F);
     N.lor 0x80 (N.land (N.shiftr v 6) 0x3F); N.lor 0x80 (N.land v 0x3F)].

Definition isLeadSurrogate (c : N) : bool := (0xD800 <=? c) && (c <=? 0xDBFF).
Definition isTrailSurrogate (c : N) : bool := (0xDC00 <=? c) && (c <=? 0xDFFF).

Definition percentCodePoint (v : N) : jsstring := concat (map percentOctet (utf8 v)).

(** The [Encode] operation with the unescaped set of [encodeURIComponent]:
    a lone surrogate raises [URIError]. *)
Fixpoint encodeURIComponent (s : jsstring) : completion jsstring :=
  match s with
  | [] => Normal []
  | c :: r =>
      if isUriUnescaped c then
        t ← encodeURIComponent r; Normal (c :: t)
      else if isTrailSurrogate c then Throw URIError
      else if isLeadSurrogate c then
        match r with
        | k :: r' =>
            if isTrailSurrogate k then
              t ← encodeURIComponent r';
              Normal (percentCodePoint
                        ((c - 0xD800) * 0x400 + (k - 0xDC00) + 0x10000) ++ t)
            else Throw URIError
        | [] => Throw URIError
        end
      else
        t ← encodeURIComponent r; Normal (percentCodePoint c ++ t)
  end.

(** [Number::toString] of an integer-valued number of magnitude at most
    2^53, the integers a number holds exactly: its decimal numeral.  Epoch
    timestamps, season numbers and status codes are such numbers; larger
    and fractional numbers, NaN and the infinities are outside this model of
    the number arguments. *)
Definition number_toString (z : Z) : jsstring :=
  lit (NilZero.string_of_int (Z.to_int z)).

(** *** [JSON.stringify] of a string: [QuoteJSONString] *)

Definition hexDigitLower (d : N) : N :=
  if d <? 10 then 0x30 + d else 0x61 + (d - 10).

(** A code unit as backslash, u and four lower-case hexadecimal digits. *)
Definition unicodeEscape (c : N) : jsstring :=
  [0x5C; 0x75; hexDigitLower (N.land (N.shiftr c 12) 0xF);
   hexDigitLower (N.land (N.shiftr c 8) 0xF);
   hexDigitLower (N.land (N.shiftr c 4) 0xF); hexDigitLower (N.land c 0xF)].

Definition quoteCodeUnit (c : N) : jsstring :=
  if c =? 0x08 then [0x5C; 0x62]
  else if c =? 0x09 then [0x5C; 0x74]
  else if c =? 0x0A then [0x5C; 0x6E]
  else if c =? 0x0C then [0x5C; 0x66]
  else if c =? 0x0D then [0x5C; 0x72]
  else if c =? 0x22 then [0x5C; 0x22]
  else if c =? 0x5C then [0x5C; 0x5C]
  else if c <? 0x20 then unicodeEscape c
  else [c].

Fixpoint quoteChars (s : jsstring) : jsstring :=
  match s with
  | [] => []
  | c :: r =>
      if isLeadSurrogate c then
        match r with
        | k :: r' =>
            if isTrailSurrogate k then c :: k :: quoteChars r'
            else unicodeEscape c ++ quoteChars r
        | [] => unicodeEscape c
        end
      else if isTrailSurrogate c then unicodeEscape c ++ quoteChars r
      else quoteCodeUnit c ++ quoteChars r
  end.

Definition dq : jsstring := [0x22].
Definition nl : jsstring := [0x0A].

Definition QuoteJSONString (s : jsstring) : jsstring := dq ++ quoteChars s ++ dq.

End Js.

Import Js.

Local Open Scope list_scope.

(** ** Constants and enumerations of the module *)

Definition userAgent : jsstring :=
  lit "Mozilla/5.0 (Windows NT 10.0; Win64; x64) AppleWebKit/537.36 (KHTML, like Gecko) Chrome/74.0.3729.169 Safari/537.36".
Definition baseCookie : jsstring :=
  lit "new_SiteId=cod;ACT_SSO_LOCALE=en_US;country=US;".
Definition baseUrl : jsstring := lit "https://profile.callofduty.com".
Definition apiPath : jsstring := lit "/api/papi-client".
Definition baseTelescopeUrl : jsstring := lit "https://telescope.callofduty.com".
Definition apiTelescopePath : jsstring := lit "/api/ts-api".
Definition telescope_login_endpoint : jsstring :=
  lit "https://wzm-ios-loginservice.prod.demonware.net/v1/login/uno/?titleID=7100&client=shg-cod-jup-bnet".

Module platforms.
Definition All : jsstring := lit "all".
Definition Activision : jsstring := lit "acti".
Definition Battlenet : jsstring := lit "battle".
Definition PSN : jsstring := lit "psn".
Definition Steam : jsstring := lit "steam".
Definition Uno : jsstring := lit "uno".
Definition XBOX : jsstring := lit "xbl".
Definition ios : jsstring := lit "ios".
Definition NULL : jsstring := lit "_".
(** [Object.values(platforms)], in declaration order. *)
Definition values : list jsstring :=
  [All; Activision; Battlenet; PSN; Steam; Uno; XBOX; ios; NULL].
End platforms.

Module games.
Definition ModernWarfare : jsstring := lit "mw".
Definition ModernWarfare2 : jsstring := lit "mw2".
Definition Vanguard : jsstring := lit "vg".
Definition ColdWar : jsstring := lit "cw".
Definition NULL : jsstring := lit "_".
End games.

Module telescopeGames.
Definition ModernWarfare2 : jsstring := lit "mw2".
Definition Warzone2 : jsstring := lit "wz2".
Definition ModernWarfare3 : jsstring := lit "jup".
Definition Mobile : jsstring := lit "mgl".
End telescopeGames.

Module modes.
Definition Multiplayer : jsstring := lit "mp".
Definition Warzone : jsstring := lit "wz".
Definition Warzone2 : jsstring := lit "wz2".
Definition NULL : jsstring := lit "_".
End modes.

Module telescopeModes.
Definition Multiplayer : jsstring := lit "mp".
Definition Outbreak : jsstring := lit "ob".
End telescopeModes.

Module friendActions.
Definition Invite : jsstring := lit "invite".
Definition Uninvite : jsstring := lit "uninvite".
Definition Remove : jsstring := lit "remove".
Definition Block : jsstring := lit "block".
Definition Unblock : jsstring := lit "unblock".
End friendActions.

Module generics.
Definition STEAM_UNSUPPORTED : jsstring :=
  lit "Steam platform not supported by this game. Try `battle` instead.".
Definition UNO_NO_NUMERICAL_ID : jsstring :=
  lit "You must use a numerical ID when using the platform 'uno'." ++ nl ++
  lit "If using an Activision ID, please use the platform 'acti'.".
End generics.

(** ** Module variables, requests and the monad of the client *)

(** A header object.  The order of its keys is not kept. *)
Abbreviation Headers := (gmap string jsstring).

Inductive Method : Type := GET | POST.

(** The arguments of one call of undici's [request]. *)
Record Request : Type := mkRequest {
  req_method : Method;
  req_url : jsstring;
  req_headers : Headers;
  req_body : option jsstring
}.

(** The module-level [let] variables that are assigned after start-up. *)
Record Globals : Type := mkGlobals {
  baseSsoToken : jsstring;
  debugMode : bool;
  baseHeaders : Headers;
  baseTelescopeHeaders : Headers;
  basePostHeaders : Headers;
  loggedIn : bool;
  telescopeUnoToken : jsstring
}.

(** The variables, and the calls of [request] made so far, oldest first. *)
Record World : Type := mkWorld {
  globals : Globals;
  wire : list Request
}.

Definition initialGlobals : Globals := {|
  baseSsoToken := [];
  debugMode := false;
  baseHeaders :=
    <["content-type" := lit "application/json"]>
    (<["cookie" := baseCookie]>
    (<["user-agent" := userAgent]> ∅));
  baseTelescopeHeaders :=
    <["accept" := lit "application/json, text/plain, */*"]>
    (<["accept-language" := lit "en-GB,en;q=0.9,en-US;q=0.8,fr;q=0.7,nl;q=0.6,et;q=0.5"]>
    (<["cache-control" := lit "no-cache"]>
    (<["pragma" := lit "no-cache"]>
    (<["sec-ch-ua" :=
         dq ++ lit "Chromium" ++ dq ++ lit ";v=" ++ dq ++ lit "118" ++ dq ++ lit ", " ++
         dq ++ lit "Microsoft Edge" ++ dq ++ lit ";v=" ++ dq ++ lit "118" ++ dq ++ lit ", " ++
         dq ++ lit "Not=A?Brand" ++ dq ++ lit ";v=" ++ dq ++ lit "99" ++ dq]>
    (<["sec-ch-ua-mobile" := lit "?0"]>
    (<["sec-ch-ua-platform" := dq ++ lit "Windows" ++ dq]>
    (<["sec-fetch-dest" := lit "empty"]>
    (<["sec-fetch-mode" := lit "cors"]>
    (<["sec-fetch-site" := lit "same-site"]> ∅)))))))));
  basePostHeaders :=
    <["content-type" := lit "text/plain"]>
    (<["cookie" := baseCookie]>
    (<["user-agent" := userAgent]> ∅));
  loggedIn := false;
  telescopeUnoToken := []
|}.

Definition initialWorld : World := {| globals := initialGlobals; wire := [] |}.

(** A computation of the client: it reads and assigns the module
    variables, may call [request], and completes with a value or a throw.
    The world it leaves behind is kept in both cases. *)
Definition M (A : Type) : Type := World → completion A * World.

#[export] Instance M_ret : MRet M := λ A a w, (Normal a, w).
#[export] Instance M_bind : MBind M := λ A B f m w,
  match m w with
  | (Normal a, w') => f a w'
  | (Throw e, w') => (Throw e, w')
  end.

Definition throw {A : Type} (e : exn) : M A := λ w, (Throw e, w).

(** A pure evaluation inside a computation. *)
Definition pure {A : Type} (c : completion A) : M A := λ w, (c, w).

Definition read {A : Type} (field : Globals → A) : M A :=
  λ w, (Normal (field (globals w)), w).

Definition assign (f : Globals → Globals) : M unit :=
  λ w, (Normal tt, {| globals := f (globals w); wire := wire w |}).

Definition set_baseSsoToken (v : jsstring) (g : Globals) : Globals :=
  mkGlobals v (debugMode g) (baseHeaders g) (baseTelescopeHeaders g)
            (basePostHeaders g) (loggedIn g) (telescopeUnoToken g).
Definition set_debugMode (v : bool) (g : Globals) : Globals :=
  mkGlobals (baseSsoToken g) v (baseHeaders g) (baseTelescopeHeaders g)
            (basePostHeaders g) (loggedIn g) (telescopeUnoToken g).
Definition set_baseHeaders (k : string) (v : jsstring) (g : Globals) : Globals :=
  mkGlobals (baseSsoToken g) (debugMode g) (<[k := v]> (baseHeaders g))
            (baseTelescopeHeaders g) (basePostHeaders g) (loggedIn g)
            (telescopeUnoToken g).
Definition set_baseTelescopeHeaders (k : string) (v : jsstring) (g : Globals) : Globals :=
  mkGlobals (baseSsoToken g) (debugMode g) (baseHeaders g)
            (<[k := v]> (baseTelescopeHeaders g)) (basePostHeaders g)
            (loggedIn g) (telescopeUnoToken g).
Definition set_basePostHeaders (k : string) (v : jsstring) (g : Globals) : Globals :=
  mkGlobals (baseSsoToken g) (debugMode g) (baseHeaders g)
            (baseTelescopeHeaders g) (<[k := v]> (basePostHeaders g))
            (loggedIn g) (telescopeUnoToken g).
Definition set_loggedIn (v : bool) (g : Globals) : Globals :=
  mkGlobals (baseSsoToken g) (debugMode g) (baseHeaders g)
            (baseTelescopeHeaders g) (basePostHeaders g) v (telescopeUnoToken g).
Definition set_telescopeUnoToken (v : jsstring) (g : Globals) : Globals :=
  mkGlobals (baseSsoToken g) (debugMode g) (baseHeaders g)
            (baseTelescopeHeaders g) (basePostHeaders g) (loggedIn g) v.

Definition enableDebugMode : M bool :=
  assign (set_debugMode true);; mret true.

Definition disableDebugMode : M bool :=
  assign (set_debugMode false);; mret false.

(** ** Platform validation and gamertag normalisation *)

Definition cleanClientName (gamertag : jsstring) : completion jsstring :=
  encodeURIComponent gamertag.

Definition handleLookupType (platform : jsstring) : jsstring :=
  if eqb platform platforms.Uno then lit "id" else lit "gamer".

(** [JSON.stringify(Object.values(platforms), null, 2)]. *)
Definition platformsListing : jsstring :=
  lit "[" ++
  (fix items (l : list jsstring) : jsstring :=
     match l with
     | [] => []
     | [v] => nl ++ lit "  " ++ QuoteJSONString v
     | v :: r => nl ++ lit "  " ++ QuoteJSONString v ++ lit "," ++ items r
     end) platforms.values ++
  nl ++ lit "]".

Definition invalidPlatformMessage (platform : jsstring) : jsstring :=
  lit "Platform '" ++ platform ++ lit "' is not valid." ++ nl ++
  lit "Try one of the following:" ++ nl ++ platformsListing.

(** [Array.prototype.includes] on an array of strings. *)
Definition includes (l : list jsstring) (x : jsstring) : bool :=
  existsb (eqb x) l.

Definition checkForValidPlatform (platform gamertag : jsstring) : completion unit :=
  if negb (includes platforms.values platform)
  then Throw (Error (invalidPlatformMessage platform))
  else if truthy gamertag && isNaN_Number gamertag && eqb platform platforms.Uno
  then Throw (Error generics.UNO_NO_NUMERICAL_ID)
  else Normal tt.

(** The object [mapGamertagToPlatform] returns. *)
Record Identity : Type := mkIdentity {
  gamertag : jsstring;
  _platform : jsstring;
  lookupType : jsstring
}.

(** [steamSupport] is written out at every call; the source's default
    value for the two-argument calls is [false]. *)
Definition mapGamertagToPlatform (gamertag platform : jsstring)
    (steamSupport : bool) : completion Identity :=
  checkForValidPlatform platform gamertag;;
  let lookupType := handleLookupType platform in
  if negb steamSupport && eqb platform platforms.Steam
  then Throw (Error generics.STEAM_UNSUPPORTED)
  else
    gamertag ←
      (if eqb platform platforms.Battlenet || eqb platform platforms.Activision
          || eqb platform platforms.Uno
       then
         if truthy gamertag && (0 <? length gamertag)%nat
         then cleanClientName gamertag
         else Normal gamertag
       else Normal gamertag);
    let platform :=
      if eqb platform platforms.Uno || eqb platform platforms.Activision
      then platforms.Uno else platform in
    Normal {| gamertag := gamertag; _platform := platform; lookupType := lookupType |}.

(** ** Endpoint templates *)

(** Every [new Endpoints(...)] of the module passes all five arguments, so
    the fields are plain strings. *)
Record Endpoints : Type := new_Endpoints {
  ep_game : jsstring;
  ep_gamertag : jsstring;
  ep_platform : jsstring;
  ep_mode : jsstring;
  ep_lookupType : jsstring
}.

Module Endpoint.
Section Paths.
Variable this : Endpoints.

Definition fullData : jsstring :=
  lit "/stats/cod/v1/title/" ++ ep_game this ++ lit "/platform/" ++ ep_platform this ++
  lit "/" ++ ep_lookupType this ++ lit "/" ++ ep_gamertag this ++
  lit "/profile/type/" ++ ep_mode this.
Definition combatHistory : jsstring :=
  lit "/crm/cod/v2/title/" ++ ep_game this ++ lit "/platform/" ++ ep_platform this ++
  lit "/" ++ ep_lookupType this ++ lit "/" ++ ep_gamertag this ++
  lit "/matches/" ++ ep_mode this ++ lit "/start/0/end/0/details".
Definition combatHistoryWithDate (startTime endTime : Z) : jsstring :=
  lit "/crm/cod/v2/title/" ++ ep_game this ++ lit "/platform/" ++ ep_platform this ++
  lit "/" ++ ep_lookupType this ++ lit "/" ++ ep_gamertag this ++
  lit "/matches/" ++ ep_mode this ++ lit "/start/" ++ number_toString startTime ++
  lit "/end/" ++ number_toString endTime ++ lit "/details".
Definition breakdown : jsstring :=
  lit "/crm/cod/v2/title/" ++ ep_game this ++ lit "/platform/" ++ ep_platform this ++
  lit "/" ++ ep_lookupType this ++ lit "/" ++ ep_gamertag this ++
  lit "/matches/" ++ ep_mode this ++ lit "/start/0/end/0".
Definition breakdownWithDate (startTime endTime : Z) : jsstring :=
  lit "/crm/cod/v2/title/" ++ ep_game this ++ lit "/platform/" ++ ep_platform this ++
  lit "/" ++ ep_lookupType this ++ lit "/" ++ ep_gamertag this ++
  lit "/matches/" ++ ep_mode this ++ lit "/start/" ++ number_toString startTime ++
  lit "/end/" ++ number_toString endTime.
Definition matchInfo (matchId : jsstring) : jsstring :=
  lit "/crm/cod/v2/title/" ++ ep_game this ++ lit "/platform/" ++ ep_platform this ++
  lit "/fullMatch/wz/" ++ matchId ++ lit "/en".
Definition seasonLoot : jsstring :=
  lit "/loot/title/" ++ ep_game this ++ lit "/platform/" ++ ep_platform this ++
  lit "/" ++ ep_lookupType this ++ lit "/" ++ ep_gamertag this ++ lit "/status/en".
Definition mapList : jsstring :=
  lit "/ce/v1/title/" ++ ep_game this ++ lit "/platform/" ++ ep_platform this ++
  lit "/gameType/" ++ ep_mode this ++ lit "/communityMapData/availability".
Definition purchasableItems (gameId : jsstring) : jsstring :=
  lit "/inventory/v1/title/" ++ gameId ++ lit "/platform/psn/purchasable/public/en".
Definition bundleInformation (gameId bundleId : jsstring) : jsstring :=
  lit "/inventory/v1/title/" ++ gameId ++ lit "/bundle/" ++ bundleId ++ lit "/en".
Definition battlePassLoot (season : Z) : jsstring :=
  lit "/loot/title/" ++ ep_game this ++ lit "/platform/" ++ ep_platform this ++
  lit "/list/loot_season_" ++ number_toString season ++ lit "/en".
Definition friendFeed : jsstring :=
  lit "/userfeed/v1/friendFeed/platform/" ++ ep_platform this ++
  lit "/" ++ ep_lookupType this ++ lit "/" ++ ep_gamertag this ++
  lit "/friendFeedEvents/en".
(** The two templates below interpolate the module variable
    [baseSsoToken], read when the template is evaluated. *)
Definition eventFeed : M jsstring :=
  tok ← read baseSsoToken;
  mret (lit "/userfeed/v1/friendFeed/rendered/en/" ++ tok).
Definition loggedInIdentities : M jsstring :=
  tok ← read baseSsoToken;
  mret (lit "/crm/cod/v2/identities/" ++ tok).
Definition codPoints : jsstring :=
  lit "/inventory/v1/title/mw/platform/" ++ ep_platform this ++
  lit "/" ++ ep_lookupType this ++ lit "/" ++ ep_gamertag this ++ lit "/currency".
Definition connectedAccounts : jsstring :=
  lit "/crm/cod/v2/accounts/platform/" ++ ep_platform this ++
  lit "/" ++ ep_lookupType this ++ lit "/" ++ ep_gamertag this.
Definition settings : jsstring :=
  lit "/preferences/v1/platform/" ++ ep_platform this ++
  lit "/" ++ ep_lookupType this ++ lit "/" ++ ep_gamertag this ++ lit "/list".
Definition friendAction (action : jsstring) : jsstring :=
  lit "/codfriends/v1/" ++ action ++ lit "/" ++ ep_platform this ++
  lit "/" ++ ep_lookupType this ++ lit "/" ++ ep_gamertag this.
Definition search : jsstring :=
  lit "/crm/cod/v2/platform/" ++ ep_platform this ++ lit "/username/" ++
  ep_gamertag this ++ lit "/search".
End Paths.
End Endpoint.

Record TelescopeEndpoints : Type := new_TelescopeEndpoints {
  tep_game : jsstring;
  tep_unoId : jsstring;
  tep_mode : jsstring
}.

Module TelescopeEndpoint.
Section Paths.
Variable this : TelescopeEndpoints.

Definition lifeTime : jsstring :=
  lit "/cr/v1/title/" ++ tep_game this ++ lit "/lifetime?language=english&unoId=" ++
  tep_unoId this.
Definition matches : jsstring :=
  lit "/cr/v1/title/" ++ tep_game this ++ lit "/matches?language=english&unoId=" ++
  tep_unoId this.
Definition match_ (matchId : jsstring) : jsstring :=
  lit "/cr/v1/title/" ++ tep_game this ++ lit "/match/" ++ matchId ++
  lit "?language=english&unoId=" ++ tep_unoId this.
End Paths.
End TelescopeEndpoint.

(** ** Legacy login *)

Definition fakeXSRF : jsstring := lit "68e8b62e-1d9d-4ce1-b93f-cbe5ff31a041".

(** The cookie both header objects receive at login. *)
Definition loginCookie (ssoToken : jsstring) : jsstring :=
  baseCookie ++ lit "ACT_SSO_COOKIE=" ++ ssoToken ++ lit ";XSRF-TOKEN=" ++ fakeXSRF ++
  lit ";API_CSRF_TOKEN=" ++ fakeXSRF ++ lit ";ACT_SSO_EVENT=" ++ dq ++
  lit "LOGIN_SUCCESS:1644346543228" ++ dq ++
  lit ";ACT_SSO_COOKIE_EXPIRY=1645556143194;comid=cod;ssoDevId=63025d09c69f47dfa2b8d5520b5b73e4;tfa_enrollment_seen=true;gtm.custom.bot.flag=human;".

Definition login (ssoToken : jsstring) : M bool :=
  if negb (truthy ssoToken) || (length (trim ssoToken) <=? 0)%nat then mret false
  else
    assign (set_baseHeaders "X-XSRF-TOKEN" fakeXSRF);;
    assign (set_baseHeaders "X-CSRF-TOKEN" fakeXSRF);;
    assign (set_baseHeaders "Atvi-Auth" ssoToken);;
    assign (set_baseHeaders "ACT_SSO_COOKIE" ssoToken);;
    assign (set_baseHeaders "atkn" ssoToken);;
    assign (set_baseHeaders "cookie" (loginCookie ssoToken));;
    assign (set_baseSsoToken ssoToken);;
    assign (set_basePostHeaders "X-XSRF-TOKEN" fakeXSRF);;
    assign (set_basePostHeaders "X-CSRF-TOKEN" fakeXSRF);;
    assign (set_basePostHeaders "Atvi-Auth" ssoToken);;
    assign (set_basePostHeaders "ACT_SSO_COOKIE" ssoToken);;
    assign (set_basePostHeaders "atkn" ssoToken);;
    assign (set_basePostHeaders "cookie" (loginCookie ssoToken));;
    assign (set_loggedIn true);;
    read loggedIn.

(** The body of the telescope login call:
    [JSON.stringify({platform, hardwareType, auth: {email, password}, version})]. *)
Definition telescopeLoginBody (username password : jsstring) : jsstring :=
  lit "{" ++ dq ++ lit "platform" ++ dq ++ lit ":" ++ dq ++ lit "ios" ++ dq ++
  lit "," ++ dq ++ lit "hardwareType" ++ dq ++ lit ":" ++ dq ++ lit "ios" ++ dq ++
  lit "," ++ dq ++ lit "auth" ++ dq ++ lit ":{" ++ dq ++ lit "email" ++ dq ++ lit ":" ++
  QuoteJSONString username ++ lit "," ++ dq ++ lit "password" ++ dq ++ lit ":" ++
  QuoteJSONString password ++ lit "}," ++ dq ++ lit "version" ++ dq ++ lit ":1492}".

(** ** The outside: undici's [request] and the bodies it delivers *)

(** What the client observes of a response: the status code, and what
    [body.json()] resolves to ([None]: the text is not JSON and the call
    rejects with a [SyntaxError]). *)
Record Response (JSON : Type) : Type := mkResponse {
  statusCode : Z;
  body_json : option JSON
}.
Arguments mkResponse {JSON} statusCode body_json.
Arguments statusCode {JSON} r.
Arguments body_json {JSON} r.

Section Client.

(** The values [body.json()] resolves to.  The client hands them to its
    caller untouched, except for the two reads below. *)
Context {JSON : Type}.

(** [response.umbrella.accessToken] of a login response: [None] when the
    read throws a [TypeError], otherwise the text the value interpolates
    to in a template literal. *)
Variable umbrella_accessToken : JSON → option jsstring.

(** [errorResponse.error.msg] of a refused login: [None] when the read
    throws a [TypeError]. *)
Variable error_msg : JSON → option jsstring.

(** The other side of the wire: the answer to a call, given the calls
    made before it; [None] when [request] rejects. *)
Variable upstream : list Request → Request → option (Response JSON).

Definition request (r : Request) : M (Response JSON) := λ w,
  let w' := {| globals := globals w; wire := wire w ++ [r] |} in
  match upstream (wire w) r with
  | Some resp => (Normal resp, w')
  | None => (Throw NetworkError, w')
  end.

(** [await body.json()]. *)
Definition json (resp : Response JSON) : M JSON :=
  match body_json resp with
  | Some v => mret v
  | None => throw SyntaxError
  end.

Definition statusMessage (statusCode : Z) : jsstring :=
  lit "Received status code: '" ++ number_toString statusCode ++
  lit "'. Route may be down or not exist.".

(** *** Dispatchers *)

Definition sendTelescopeRequest (url : jsstring) : M JSON :=
  li ← read loggedIn;
  if negb li then throw (Error (lit "Not Logged In!"))
  else
    let requestUrl := baseTelescopeUrl ++ apiTelescopePath ++ url in
    tok ← read telescopeUnoToken;
    assign (set_baseTelescopeHeaders "authorization" (lit "Bearer " ++ tok));;
    headers ← read baseTelescopeHeaders;
    resp ← request {| req_method := GET; req_url := requestUrl;
                      req_headers := headers; req_body := None |};
    if (statusCode resp >=? 500)%Z then throw (Error (statusMessage (statusCode resp)))
    else
      response ← json resp;
      mret response.

Definition sendRequest (url : jsstring) : M JSON :=
  li ← read loggedIn;
  if negb li then throw (Error (lit "Not Logged In."))
  else
    let requestUrl := baseUrl ++ apiPath ++ url in
    headers ← read baseHeaders;
    resp ← request {| req_method := GET; req_url := requestUrl;
                      req_headers := headers; req_body := None |};
    if (statusCode resp >=? 500)%Z then throw (Error (statusMessage (statusCode resp)))
    else
      response ← json resp;
      mret response.

Definition sendPostRequest (url data : jsstring) : M JSON :=
  li ← read loggedIn;
  if negb li then throw (Error (lit "Not Logged In."))
  else
    let requestUrl := baseUrl ++ apiPath ++ url in
    headers ← read basePostHeaders;
    resp ← request {| req_method := POST; req_url := requestUrl;
                      req_headers := headers; req_body := Some data |};
    if (statusCode resp >=? 500)%Z then throw (Error (statusMessage (statusCode resp)))
    else
      response ← json resp;
      mret response.

(** *** Telescope login *)

Definition telescopeLogin (username password : jsstring) : M bool :=
  if negb (truthy username) || negb (truthy password) then mret false
  else
    headers ← read baseHeaders;
    resp ← request {| req_method := POST; req_url := telescope_login_endpoint;
                      req_headers := headers;
                      req_body := Some (telescopeLoginBody username password) |};
    (if (statusCode resp =? 200)%Z then
       response ← json resp;
       match umbrella_accessToken response with
       | Some unoToken => assign (set_telescopeUnoToken unoToken)
       | None => throw TypeError
       end
     else if (statusCode resp =? 403)%Z then
       errorResponse ← json resp;
       match error_msg errorResponse with
       | Some _ => mret tt
       | None => throw TypeError
       end
     else mret tt);;
    assign (set_loggedIn (statusCode resp =? 200)%Z);;
    read loggedIn.

(** *** Title adapters

      Every adapter method that takes a platform has one shape: resolve the
      identity, build an [Endpoints] from it, hand one of its templates to a
      dispatcher.  [withIdentity] is that shape; the methods below differ in
      the title, the mode, the handle and the template. *)

Definition withIdentity (game mode gamertag platform : jsstring)
    (steamSupport : bool) (dispatch : Endpoints → M JSON) : M JSON :=
  '(mkIdentity gamertag platform lookupType) ←
    pure (mapGamertagToPlatform gamertag platform steamSupport);
  let endpoint := new_Endpoints game gamertag platform mode lookupType in
  dispatch endpoint.

(** The shape of the telescope adapters: the handle is resolved on the
    platform [uno] with the Steam allowance, and only the handle is kept. *)
Definition withUnoId (game unoId : jsstring)
    (dispatch : TelescopeEndpoints → M JSON) : M JSON :=
  '(mkIdentity gamertag _ _) ←
    pure (mapGamertagToPlatform unoId platforms.Uno true);
  let endpoint := new_TelescopeEndpoints game gamertag telescopeModes.Multiplayer in
  dispatch endpoint.

(** The methods shared by the legacy titles, for a title and its mode. *)
Section LegacyTitle.
Variables game mode : jsstring.

Definition title_fullData (gamertag platform : jsstring) : M JSON :=
  withIdentity game mode gamertag platform false
    (λ endpoint, sendRequest (Endpoint.fullData endpoint)).
Definition title_combatHistory (gamertag platform : jsstring) : M JSON :=
  withIdentity game mode gamertag platform false
    (λ endpoint, sendRequest (Endpoint.combatHistory endpoint)).
Definition title_combatHistoryWithDate (gamertag : jsstring)
    (startTime endTime : Z) (platform : jsstring) : M JSON :=
  withIdentity game mode gamertag platform false
    (λ endpoint, sendRequest (Endpoint.combatHistoryWithDate endpoint startTime endTime)).
Definition title_breakdown (gamertag platform : jsstring) : M JSON :=
  withIdentity game mode gamertag platform false
    (λ endpoint, sendRequest (Endpoint.breakdown endpoint)).
Definition title_breakdownWithDate (gamertag : jsstring)
    (startTime endTime : Z) (platform : jsstring) : M JSON :=
  withIdentity game mode gamertag platform false
    (λ endpoint, sendRequest (Endpoint.breakdownWithDate endpoint startTime endTime)).
Definition title_matchInfo (matchId platform : jsstring) : M JSON :=
  withIdentity game mode [] platform false
    (λ endpoint, sendRequest (Endpoint.matchInfo endpoint matchId)).
Definition title_seasonloot (gamertag platform : jsstring) : M JSON :=
  withIdentity game mode gamertag platform false
    (λ endpoint, sendRequest (Endpoint.seasonLoot endpoint)).
Definition title_mapList (platform : jsstring) : M JSON :=
  withIdentity game mode [] platform false
    (λ endpoint, sendRequest (Endpoint.mapList endpoint)).
End LegacyTitle.

(** The methods shared by the telescope titles. *)
Section TelescopeTitle.
Variable game : jsstring.

Definition telescope_fullData (unoId : jsstring) : M JSON :=
  withUnoId game unoId (λ endpoint, sendTelescopeRequest (TelescopeEndpoint.lifeTime endpoint)).
Definition telescope_matches (unoId : jsstring) : M JSON :=
  withUnoId game unoId (λ endpoint, sendTelescopeRequest (TelescopeEndpoint.matches endpoint)).
Definition telescope_matchInfo (unoId matchId : jsstring) : M JSON :=
  withUnoId game unoId
    (λ endpoint, sendTelescopeRequest (TelescopeEndpoint.match_ endpoint matchId)).
End TelescopeTitle.

End Client.

(** The classes of the module.  [WZ.cleanGameMode] and [ALT.cleanWeapon]
    look a name up in two data files and touch nothing else; they are left
    out. *)

Module WZ.
Section Methods.
Context {JSON : Type} (upstream : list Request → Request → option (Response JSON)).
Definition fullData := title_fullData upstream games.ModernWarfare modes.Warzone.
Definition combatHistory := title_combatHistory upstream games.ModernWarfare modes.Warzone.
Definition combatHistoryWithDate :=
  title_combatHistoryWithDate upstream games.ModernWarfare modes.Warzone.
Definition breakdown := title_breakdown upstream games.ModernWarfare modes.Warzone.
Definition breakdownWithDate :=
  title_breakdownWithDate upstream games.ModernWarfare modes.Warzone.
Definition matchInfo := title_matchInfo upstream games.ModernWarfare modes.Warzone.
End Methods.
End WZ.

Module MW.
Section Methods.
Context {JSON : Type} (upstream : list Request → Request → option (Response JSON)).
Definition fullData := title_fullData upstream games.ModernWarfare modes.Multiplayer.
Definition combatHistory := title_combatHistory upstream games.ModernWarfare modes.Multiplayer.
Definition combatHistoryWithDate :=
  title_combatHistoryWithDate upstream games.ModernWarfare modes.Multiplayer.
Definition breakdown := title_breakdown upstream games.ModernWarfare modes.Multiplayer.
Definition breakdownWithDate :=
  title_breakdownWithDate upstream games.ModernWarfare modes.Multiplayer.
Definition matchInfo := title_matchInfo upstream games.ModernWarfare modes.Multiplayer.
Definition seasonloot := title_seasonloot upstream games.ModernWarfare modes.Multiplayer.
Definition mapList := title_mapList upstream games.ModernWarfare modes.Multiplayer.
End Methods.
End MW.

Module CW.
Section Methods.
Context {JSON : Type} (upstream : list Request → Request → option (Response JSON)).
Definition fullData := title_fullData upstream games.ColdWar modes.Multiplayer.
Definition combatHistory := title_combatHistory upstream games.ColdWar modes.Multiplayer.
Definition combatHistoryWithDate :=
  title_combatHistoryWithDate upstream games.ColdWar modes.Multiplayer.
Definition breakdown := title_breakdown upstream games.ColdWar modes.Multiplayer.
Definition breakdownWithDate :=
  title_breakdownWithDate upstream games.ColdWar modes.Multiplayer.
Definition seasonloot := title_seasonloot upstream games.ColdWar modes.Multiplayer.
Definition mapList := title_mapList upstream games.ColdWar modes.Multiplayer.
Definition matchInfo := title_matchInfo upstream games.ColdWar modes.Multiplayer.
End Methods.
End CW.

Module VG.
Section Methods.
Context {JSON : Type} (upstream : list Request → Request → option (Response JSON)).
Definition fullData := title_fullData upstream games.Vanguard modes.Multiplayer.
Definition combatHistory := title_combatHistory upstream games.Vanguard modes.Multiplayer.
Definition combatHistoryWithDate :=
  title_combatHistoryWithDate upstream games.Vanguard modes.Multiplayer.
Definition breakdown := title_breakdown upstream games.Vanguard modes.Multiplayer.
Definition breakdownWithDate :=
  title_breakdownWithDate upstream games.Vanguard modes.Multiplayer.
Definition seasonloot := title_seasonloot upstream games.Vanguard modes.Multiplayer.
Definition mapList := title_mapList upstream games.Vanguard modes.Multiplayer.
Definition matchInfo := title_matchInfo upstream games.Vanguard modes.Multiplayer.
End Methods.
End VG.

Module MW2.
Section Methods.
Context {JSON : Type} (upstream : list Request → Request → option (Response JSON)).
Definition fullData := telescope_fullData upstream telescopeGames.ModernWarfare2.
Definition matches := telescope_matches upstream telescopeGames.ModernWarfare2.
Definition matchInfo := telescope_matchInfo upstream telescopeGames.ModernWarfare2.
End Methods.
End MW2.

Module WZ2.
Section Methods.
Context {JSON : Type} (upstream : list Request → Request → option (Response JSON)).
Definition fullData := telescope_fullData upstream telescopeGames.Warzone2.
Definition matches := telescope_matches upstream telescopeGames.Warzone2.
Definition matchInfo := telescope_matchInfo upstream telescopeGames.Warzone2.
End Methods.
End WZ2.

Module MW3.
Section Methods.
Context {JSON : Type} (upstream : list Request → Request → option (Response JSON)).
Definition fullData := telescope_fullData upstream telescopeGames.ModernWarfare3.
Definition matches := telescope_matches upstream telescopeGames.ModernWarfare3.
Definition matchInfo := telescope_matchInfo upstream telescopeGames.ModernWarfare3.
End Methods.
End MW3.

Module WZM.
Section Methods.
Context {JSON : Type} (upstream : list Request → Request → option (Response JSON)).
Definition fullData := telescope_fullData upstream telescopeGames.Mobile.
Definition matches := telescope_matches upstream telescopeGames.Mobile.
Definition matchInfo := telescope_matchInfo upstream telescopeGames.Mobile.
End Methods.
End WZM.

Module SHOP.
Section Methods.
Context {JSON : Type} (upstream : list Request → Request → option (Response JSON)).
Definition purchasableItems (gameId : jsstring) : M JSON :=
  let endpoint := new_Endpoints games.NULL [] platforms.NULL modes.NULL [] in
  sendRequest upstream (Endpoint.purchasableItems gameId).
Definition bundleInformation (title bundleId : jsstring) : M JSON :=
  let endpoint := new_Endpoints games.NULL [] platforms.NULL modes.NULL [] in
  sendRequest upstream (Endpoint.bundleInformation title bundleId).
Definition battlePassLoot (title : jsstring) (season : Z) (platform : jsstring) : M JSON :=
  withIdentity title modes.NULL [] platform false
    (λ endpoint, sendRequest upstream (Endpoint.battlePassLoot endpoint season)).
End Methods.
End SHOP.

Module USER.
Section Methods.
Context {JSON : Type} (upstream : list Request → Request → option (Response JSON)).
Definition friendFeed (gamertag platform : jsstring) : M JSON :=
  withIdentity games.NULL modes.NULL gamertag platform false
    (λ endpoint, sendRequest upstream (Endpoint.friendFeed endpoint)).
Definition eventFeed : M JSON :=
  let endpoint := new_Endpoints games.NULL [] platforms.NULL modes.NULL [] in
  url ← Endpoint.eventFeed;
  sendRequest upstream url.
Definition loggedInIdentities : M JSON :=
  let endpoint := new_Endpoints games.NULL [] platforms.NULL modes.NULL [] in
  url ← Endpoint.loggedInIdentities;
  sendRequest upstream url.
Definition codPoints (gamertag platform : jsstring) : M JSON :=
  withIdentity games.NULL modes.NULL gamertag platform false
    (λ endpoint, sendRequest upstream (Endpoint.codPoints endpoint)).
Definition connectedAccounts (gamertag platform : jsstring) : M JSON :=
  withIdentity games.NULL modes.NULL gamertag platform false
    (λ endpoint, sendRequest upstream (Endpoint.connectedAccounts endpoint)).
Definition settings (gamertag platform : jsstring) : M JSON :=
  withIdentity games.NULL modes.NULL gamertag platform false
    (λ endpoint, sendRequest upstream (Endpoint.settings endpoint)).
Definition friendAction (gamertag platform action : jsstring) : M JSON :=
  withIdentity games.NULL modes.NULL gamertag platform false
    (λ endpoint, sendPostRequest upstream (Endpoint.friendAction endpoint action) (lit "{}")).
End Methods.
End USER.

Module ALT.
Section Methods.
Context {JSON : Type} (upstream : list Request → Request → option (Response JSON)).
Definition search (gamertag platform : jsstring) : M JSON :=
  withIdentity games.NULL modes.NULL gamertag platform true
    (λ endpoint, sendRequest upstream (Endpoint.search endpoint)).
End Methods.
End ALT.

(** The exported methods that take a platform from their caller, each with
    its other arguments.  The telescope titles, [SHOP.purchasableItems],
    [SHOP.bundleInformation], [USER.eventFeed] and [USER.loggedInIdentities]
    take none. *)
Inductive platformCall : Type :=
  | WZ_fullData (gamertag : jsstring)
  | WZ_combatHistory (gamertag : jsstring)
  | WZ_combatHistoryWithDate (gamertag : jsstring) (startTime endTime : Z)
  | WZ_breakdown (gamertag : jsstring)
  | WZ_breakdownWithDate (gamertag : jsstring) (startTime endTime : Z)
  | WZ_matchInfo (matchId : jsstring)
  | MW_fullData (gamertag : jsstring)
  | MW_combatHistory (gamertag : jsstring)
  | MW_combatHistoryWithDate (gamertag : jsstring) (startTime endTime : Z)
  | MW_breakdown (gamertag : jsstring)
  | MW_breakdownWithDate (gamertag : jsstring) (startTime endTime : Z)
  | MW_matchInfo (matchId : jsstring)
  | MW_seasonloot (gamertag : jsstring)
  | MW_mapList
  | CW_fullData (gamertag : jsstring)
  | CW_combatHistory (gamertag : jsstring)
  | CW_combatHistoryWithDate (gamertag : jsstring) (startTime endTime : Z)
  | CW_breakdown (gamertag : jsstring)
  | CW_breakdownWithDate (gamertag : jsstring) (startTime endTime : Z)
  | CW_seasonloot (gamertag : jsstring)
  | CW_mapList
  | CW_matchInfo (matchId : jsstring)
  | VG_fullData (gamertag : jsstring)
  | VG_combatHistory (gamertag : jsstring)
  | VG_combatHistoryWithDate (gamertag : jsstring) (startTime endTime : Z)
  | VG_breakdown (gamertag : jsstring)
  | VG_breakdownWithDate (gamertag : jsstring) (startTime endTime : Z)
  | VG_seasonloot (gamertag : jsstring)
  | VG_mapList
  | VG_matchInfo (matchId : jsstring)
  | SHOP_battlePassLoot (title : jsstring) (season : Z)
  | USER_friendFeed (gamertag : jsstring)
  | USER_codPoints (gamertag : jsstring)
  | USER_connectedAccounts (gamertag : jsstring)
  | USER_settings (gamertag : jsstring)
  | USER_friendAction (gamertag : jsstring) (action : jsstring)
  | ALT_search (gamertag : jsstring).

Section Invoke.
Context {JSON : Type} (upstream : list Request → Request → option (Response JSON)).

(** The call of such a method on a platform. *)
Definition invoke (c : platformCall) (platform : jsstring) : M JSON :=
  match c with
  | WZ_fullData gamertag => WZ.fullData upstream gamertag platform
  | WZ_combatHistory gamertag => WZ.combatHistory upstream gamertag platform
  | WZ_combatHistoryWithDate gamertag startTime endTime => WZ.combatHistoryWithDate upstream gamertag startTime endTime platform
  | WZ_breakdown gamertag => WZ.breakdown upstream gamertag platform
  | WZ_breakdownWithDate gamertag startTime endTime => WZ.breakdownWithDate upstream gamertag startTime endTime platform
  | WZ_matchInfo matchId => WZ.matchInfo upstream matchId platform
  | MW_fullData gamertag => MW.fullData upstream gamertag platform
  | MW_combatHistory gamertag => MW.combatHistory upstream gamertag platform
  | MW_combatHistoryWithDate gamertag startTime endTime => MW.combatHistoryWithDate upstream gamertag startTime endTime platform
  | MW_breakdown gamertag => MW.breakdown upstream gamertag platform
  | MW_breakdownWithDate gamertag startTime endTime => MW.breakdownWithDate upstream gamertag startTime endTime platform
  | MW_matchInfo matchId => MW.matchInfo upstream matchId platform
  | MW_seasonloot gamertag => MW.seasonloot upstream gamertag platform
  | MW_mapList => MW.mapList upstream platform
  | CW_fullData gamertag => CW.fullData upstream gamertag platform
  | CW_combatHistory gamertag => CW.combatHistory upstream gamertag platform
  | CW_combatHistoryWithDate gamertag startTime endTime => CW.combatHistoryWithDate upstream gamertag startTime endTime platform
  | CW_breakdown gamertag => CW.breakdown upstream gamertag platform
  | CW_breakdownWithDate gamertag startTime endTime => CW.breakdownWithDate upstream gamertag startTime endTime platform
  | CW_seasonloot gamertag => CW.seasonloot upstream gamertag platform
  | CW_mapList => CW.mapList upstream platform
  | CW_matchInfo matchId => CW.matchInfo upstream matchId platform
  | VG_fullData gamertag => VG.fullData upstream gamertag platform
  | VG_combatHistory gamertag => VG.combatHistory upstream gamertag platform
  | VG_combatHistoryWithDate gamertag startTime endTime => VG.combatHistoryWithDate upstream gamertag startTime endTime platform
  | VG_breakdown gamertag => VG.breakdown upstream gamertag platform
  | VG_breakdownWithDate gamertag startTime endTime => VG.breakdownWithDate upstream gamertag startTime endTime platform
  | VG_seasonloot gamertag => VG.seasonloot upstream gamertag platform
  | VG_mapList => VG.mapList upstream platform
  | VG_matchInfo matchId => VG.matchInfo upstream matchId platform
  | SHOP_battlePassLoot title season => SHOP.battlePassLoot upstream title season platform
  | USER_friendFeed gamertag => USER.friendFeed upstream gamertag platform
  | USER_codPoints gamertag => USER.codPoints upstream gamertag platform
  | USER_connectedAccounts gamertag => USER.connectedAccounts upstream gamertag platform
  | USER_settings gamertag => USER.settings upstream gamertag platform
  | USER_friendAction gamertag action => USER.friendAction upstream gamertag platform action
  | ALT_search gamertag => ALT.search upstream gamertag platform
  end.
End Invoke.

(** ** Runs of the client *)

(** What a caller of the module can do to its variables: the exported
    functions, the adapter methods being a resolution that assigns nothing
    followed by one of the three dispatchers. *)
Inductive action : Type :=
  | Alogin (ssoToken : jsstring)
  | AtelescopeLogin (username password : jsstring)
  | AenableDebugMode
  | AdisableDebugMode
  | AsendRequest (url : jsstring)
  | AsendPostRequest (url data : jsstring)
  | AsendTelescopeRequest (url : jsstring).

Section Runs.
Context {JSON : Type}.
Variable umbrella_accessToken : JSON → option jsstring.
Variable error_msg : JSON → option jsstring.
Variable upstream : list Request → Request → option (Response JSON).

(** The world an action leaves behind, whether it returns or throws. *)
Definition perform (a : action) (w : World) : World :=
  match a with
  | Alogin ssoToken => snd (login ssoToken w)
  | AtelescopeLogin username password =>
      snd (telescopeLogin umbrella_accessToken error_msg upstream username password w)
  | AenableDebugMode => snd (enableDebugMode w)
  | AdisableDebugMode => snd (disableDebugMode w)
  | AsendRequest url => snd (sendRequest upstream url w)
  | AsendPostRequest url data => snd (sendPostRequest upstream url data w)
  | AsendTelescopeRequest url => snd (sendTelescopeRequest upstream url w)
  end.

(** The worlds the module can be in. *)
Inductive reachable : World → Prop :=
  | reachable_initial : reachable initialWorld
  | reachable_perform (w : World) (a : action) :
      reachable w → reachable (perform a w).

End Runs.

(** The calls the three dispatchers and the telescope login put on the
    wire, given the module variables at the time. *)
Definition legacyGet (g : Globals) (url : jsstring) : Request :=
  {| req_method := GET; req_url := baseUrl ++ apiPath ++ url;
     req_headers := baseHeaders g; req_body := None |}.

Definition legacyPost (g : Globals) (url data : jsstring) : Request :=
  {| req_method := POST; req_url := baseUrl ++ apiPath ++ url;
     req_headers := basePostHeaders g; req_body := Some data |}.

Definition telescopeGet (g : Globals) (url : jsstring) : Request :=
  {| req_method := GET; req_url := baseTelescopeUrl ++ apiTelescopePath ++ url;
     req_headers :=
       <["authorization" := lit "Bearer " ++ telescopeUnoToken g]> (baseTelescopeHeaders g);
     req_body := None |}.

Definition telescopeLoginCall (g : Globals) (username password : jsstring) : Request :=
  {| req_method := POST; req_url := telescope_login_endpoint;
     req_headers := baseHeaders g;
     req_body := Some (telescopeLoginBody username password) |}.

(** The header names [login] assigns. *)
Definition loginKeys : list string :=
  ["X-XSRF-TOKEN"; "X-CSRF-TOKEN"; "Atvi-Auth"; "ACT_SSO_COOKIE"; "atkn"; "cookie"]%string.

(** Outsides for closed examples.  [always_ok] answers every call 200 with
    the one JSON value there is; [answering status text] answers every call
    with that status and that body. *)
Definition always_ok : list Request → Request → option (Response unit) :=
  λ _ _, Some (mkResponse 200%Z (Some tt)).

Definition answering (status : Z) (text : option unit)
    : list Request → Request → option (Response unit) :=
  λ _ _, Some (mkResponse status text).

(** How a dispatcher treats an answer: a status of 500 or more throws an
    [Error] carrying the status message, whatever the body; below 500 a body
    that is not JSON throws the [SyntaxError] of [body.json()], and a JSON
    body is the value returned. *)
Definition classified {JSON : Type} (resp : Response JSON)
    (outcome : completion JSON) : Prop :=
  ((500 ≤ statusCode resp)%Z →
     outcome = Throw (Error (statusMessage (statusCode resp))))
  ∧ ((statusCode resp < 500)%Z → body_json resp = None →
     outcome = Throw SyntaxError)
  ∧ ((statusCode resp < 500)%Z → ∀ v : JSON, body_json resp = Some v →
     outcome = Normal v).

(** The legacy header objects and the stored token. *)
Definition legacyPart (g : Globals) : Headers * Headers * jsstring :=
  (baseHeaders g, basePostHeaders g, baseSsoToken g).

(** Only [login] writes to the legacy header objects, and only under the
    names of [loginKeys]: every other entry is the initial one. *)
Definition initial_outside_loginKeys (g : Globals) : Prop :=
  ∀ k : string, k ∉ loginKeys →
    baseHeaders g !! k = baseHeaders initialGlobals !! k
    ∧ basePostHeaders g !! k = basePostHeaders initialGlobals !! k.

(** ** Words of the specification *)

(** A purely numeric handle, in the words of the specification: one or
    more characters, all of them decimal digits. *)
Definition purely_numeric (handle : jsstring) : bool := some_all isDigit handle.

(** A code unit that is not a surrogate. *)
Definition not_surrogate (c : N) : Prop := c < 0xD800 ∨ 0xDFFF < c.

(** A path that has the platform as one of its segments. *)
Definition embeds_platform_segment (platform path : jsstring) : Prop :=
  ∃ pre post : jsstring, path = pre ++ lit "/" ++ platform ++ lit "/" ++ post.

(** ** Further notions used by the properties *)

(** A JavaScript string proper: every code unit is below 2^16. *)
Definition wf_jsstring (s : jsstring) : Prop := Forall (λ c, c < 0x10000) s.

(** A character [encodeURIComponent] lets through or produces: an
    unescaped one, or the percent sign. *)
Definition isUriSafe (c : N) : bool := isUriUnescaped c || (c =? 0x25).

(** [String.prototype.isWellFormed]: no surrogate stands alone. *)
Fixpoint isWellFormed (s : jsstring) : bool :=
  match s with
  | [] => true
  | c :: r =>
      if isLeadSurrogate c then
        match r with
        | k :: r' => isTrailSurrogate k && isWellFormed r'
        | [] => false
        end
      else negb (isTrailSurrogate c) && isWellFormed r
  end.

(** What a dispatcher may do to the world: put at most one call on the
    wire, and keep the login flag, the bearer token, the legacy header
    objects, the stored token and the debug flag. *)
Definition tried_once_kept_session (w w' : World) : Prop :=
  (wire w' = wire w ∨ ∃ r : Request, wire w' = wire w ++ [r])
  ∧ loggedIn (globals w') = loggedIn (globals w)
  ∧ telescopeUnoToken (globals w') = telescopeUnoToken (globals w)
  ∧ legacyPart (globals w') = legacyPart (globals w)
  ∧ debugMode (globals w') = debugMode (globals w).

(** The six assignments [login] makes to a header object, in its order. *)
Definition withCredentials (ssoToken : jsstring) (h : Headers) : Headers :=
  <["cookie" := loginCookie ssoToken]>
  (<["atkn" := ssoToken]>
  (<["ACT_SSO_COOKIE" := ssoToken]>
  (<["Atvi-Auth" := ssoToken]>
  (<["X-CSRF-TOKEN" := fakeXSRF]>
  (<["X-XSRF-TOKEN" := fakeXSRF]> h))))).

(** The value [login] gives to one of its header names. *)
Definition credential (ssoToken : jsstring) (k : string) : jsstring :=
  if bool_decide (k = "cookie"%string) then loginCookie ssoToken
  else if bool_decide (k = "X-XSRF-TOKEN"%string) || bool_decide (k = "X-CSRF-TOKEN"%string)
  then fakeXSRF
  else ssoToken.

(** What the legacy header objects hold under such a name for a stored
    token: before any login the initial cookie and nothing else, after a
    login the credentials of the token. *)
Definition credentials_of (ssoToken : jsstring) (k : string) : option jsstring :=
  if truthy ssoToken then Some (credential ssoToken k)
  else if bool_decide (k = "cookie"%string) then Some baseCookie
  else None.

(** The platform a path is built with. *)
Definition wirePlatform (platform : jsstring) : jsstring :=
  if eqb platform platforms.Uno || eqb platform platforms.Activision
  then platforms.Uno else platform.

(** An outside that grants every login with the token T. *)
Definition granting : unit → option jsstring := λ _, Some (lit "T").

(** The legacy header objects agree with the stored token. *)
Definition holds_stored_token (g : Globals) : Prop :=
  (∀ k : string, k ∈ loginKeys →
     baseHeaders g !! k = credentials_of (baseSsoToken g) k
     ∧ basePostHeaders g !! k = credentials_of (baseSsoToken g) k)
  ∧ (baseSsoToken g ≠ [] → trim (baseSsoToken g) ≠ []).


(** Runs of several actions, one after the other. *)
Section Sequences.
Context {JSON : Type}.
Variable umbrella_accessToken : JSON → option jsstring.
Variable error_msg : JSON → option jsstring.
Variable upstream : list Request → Request → option (Response JSON).


End Sequences.


(** * Properties *)

(** ** Sanity checks of the run-time model *)

Example trim_strips_both_ends : trim (lit "  a b ") = lit "a b".
Proof. reflexivity. Qed.

Example encode_hash_sign :
  encodeURIComponent (lit "gamer#1234") = Normal (lit "gamer%231234").
Proof. reflexivity. Qed.

Example encode_two_and_three_octets :
  encodeURIComponent [0xE9; 0x20AC] = Normal (lit "%C3%A9%E2%82%AC").
Proof. reflexivity. Qed.

Example encode_surrogate_pair :
  encodeURIComponent [0xD83D; 0xDE00] = Normal (lit "%F0%9F%98%80").
Proof. reflexivity. Qed.

Example encode_lone_surrogate : encodeURIComponent [0xD83D] = Throw URIError.
Proof. reflexivity. Qed.

Example isNaN_Number_samples :
  map isNaN_Number
    [lit "123"; lit ""; lit " "; lit "1e3"; lit "0x1F"; lit "-5"; lit "Infinity";
     lit ".5"; lit "5."; lit " 12 "; lit "1.5e+10"; lit "-Infinity"]
  = repeat false 12
  ∧ map isNaN_Number
      [lit "abc"; lit "12a"; lit "."; lit "1e"; lit "+0x10"; lit "1 2"; lit "e5";
       lit "-"; lit "0x"; lit "infinity"; lit "gamer#1234"]
    = repeat true 11.
Proof. split; vm_compute; reflexivity. Qed.

Example number_toString_samples :
  map number_toString [0; 500; -12; 1645556143194]%Z
  = [lit "0"; lit "500"; lit "-12"; lit "1645556143194"].
Proof. vm_compute. reflexivity. Qed.

Example platformsListing_text :
  platformsListing =
  lit "[" ++ nl ++ lit "  " ++ dq ++ lit "all" ++ dq ++ lit "," ++ nl ++
  lit "  " ++ dq ++ lit "acti" ++ dq ++ lit "," ++ nl ++
  lit "  " ++ dq ++ lit "battle" ++ dq ++ lit "," ++ nl ++
  lit "  " ++ dq ++ lit "psn" ++ dq ++ lit "," ++ nl ++
  lit "  " ++ dq ++ lit "steam" ++ dq ++ lit "," ++ nl ++
  lit "  " ++ dq ++ lit "uno" ++ dq ++ lit "," ++ nl ++
  lit "  " ++ dq ++ lit "xbl" ++ dq ++ lit "," ++ nl ++
  lit "  " ++ dq ++ lit "ios" ++ dq ++ lit "," ++ nl ++
  lit "  " ++ dq ++ lit "_" ++ dq ++ nl ++ lit "]".
Proof. vm_compute. reflexivity. Qed.

(** ** Unfolding the monad *)

Arguments lit : simpl never.
Arguments number_toString : simpl never.

Ltac unfold_M :=
  unfold mbind, M_bind, mret, M_ret, read, assign, throw, pure.

Lemma eqb_true (a b : jsstring) : eqb a b = true ↔ a = b.
Proof. unfold eqb. apply bool_decide_eq_true. Qed.

Lemma eqb_false (a b : jsstring) : eqb a b = false ↔ a ≠ b.
Proof. unfold eqb. apply bool_decide_eq_false. Qed.

Lemma eqb_refl (a : jsstring) : eqb a a = true.
Proof. by apply eqb_true. Qed.

(** ** Endpoint templates *)

(** C6. The dated combat-history template, evaluated on the window (0, 0),
    yields the very path of the plain combat-history template, for every
    title, gamertag, platform, lookup kind and mode; and so the dated adapter
    method called with (0, 0) is the plain adapter method. *)
Theorem combatHistoryWithDate_zero_window :
  (∀ this : Endpoints,
Endpoint.combatHistoryWithDate this 0 0 = Endpoint.combatHistory this)
  ∧ (∀ (JSON : Type) (upstream : list Request → Request → option (Response JSON))
  (game mode gamertag platform : jsstring),
  title_combatHistoryWithDate upstream game mode gamertag 0 0 platform
  = title_combatHistory upstream game mode gamertag platform).
Proof.
  split.
  - intros this. unfold Endpoint.combatHistoryWithDate, Endpoint.combatHistory.
    change (number_toString 0) with (lit "0").
    repeat rewrite <- app_assoc. reflexivity.
  - intros. reflexivity.
Qed.

(** ** Platform validation and identity resolution *)

Lemma includes_values_spec (p : jsstring) :
  includes platforms.values p = true ↔ In p platforms.values.
Proof.
  unfold includes. rewrite existsb_exists. split.
  - intros (x & Hx & He). apply eqb_true in He. by subst.
  - intros Hp. exists p. split; [done | apply eqb_refl].
Qed.

(** Validation of a platform other than [uno] looks at the platform only. *)
Lemma checkForValidPlatform_not_uno (p g : jsstring) :
  In p platforms.values → p ≠ platforms.Uno →
  checkForValidPlatform p g = Normal tt.
Proof.
  intros Hin Hne. unfold checkForValidPlatform.
  apply includes_values_spec in Hin. rewrite Hin. simpl.
  apply eqb_false in Hne. rewrite Hne. by rewrite andb_false_r.
Qed.

(** Resolution on a platform outside [battle], [acti], [uno] (and outside
    [steam] unless allowed) returns its arguments with the lookup kind
    [gamer]. *)
Lemma mapGamertagToPlatform_plain (g p : jsstring) (steamSupport : bool) :
  In p platforms.values →
  p ≠ platforms.Uno → p ≠ platforms.Activision → p ≠ platforms.Battlenet →
  (steamSupport = false → p ≠ platforms.Steam) →
  mapGamertagToPlatform g p steamSupport = Normal (mkIdentity g p (lit "gamer")).
Proof.
  intros Hin Hu Ha Hb Hs. unfold mapGamertagToPlatform.
  rewrite checkForValidPlatform_not_uno by done.
  unfold mbind, completion_bind, handleLookupType.
  apply eqb_false in Hu, Ha, Hb. rewrite Hu, Ha, Hb. simpl.
  destruct steamSupport; simpl; [done|].
  specialize (Hs eq_refl). apply eqb_false in Hs. by rewrite Hs.
Qed.

(** C5. The match-detail request of a legacy title carries the literal
    [wz] in its mode segment whatever mode the title is configured with:
    the template does not read the mode of its [Endpoints], and for every
    title code, configured mode, match id and platform that resolves, the
    adapter method hands the dispatcher the path
    /crm/cod/v2/title/<title>/platform/<wire platform>/fullMatch/wz/<match id>/en.
    [WZ.matchInfo], [MW.matchInfo], [CW.matchInfo] and [VG.matchInfo] are this
    method at (mw, wz), (mw, mp), (cw, mp) and (vg, mp). *)
Theorem matchInfo_fixed_mode_literal
    (JSON : Type) (upstream : list Request → Request → option (Response JSON))
    (game mode matchId platform : jsstring) (id : Identity) :
  mapGamertagToPlatform [] platform false = Normal id →
  (∀ mode' : jsstring,
     Endpoint.matchInfo
       (new_Endpoints game (gamertag id) (_platform id) mode' (lookupType id)) matchId
     = lit "/crm/cod/v2/title/" ++ game ++ lit "/platform/" ++ _platform id ++
       lit "/fullMatch/wz/" ++ matchId ++ lit "/en")
  ∧ title_matchInfo upstream game mode matchId platform
    = sendRequest upstream
        (lit "/crm/cod/v2/title/" ++ game ++ lit "/platform/" ++ _platform id ++
         lit "/fullMatch/wz/" ++ matchId ++ lit "/en").
Proof.
  intros Hid. split; [reflexivity|].
  unfold title_matchInfo, withIdentity. rewrite Hid.
  destruct id as [g p l]. reflexivity.
Qed.

Lemma matchInfo_fixed_mode_literal_witness :
  mapGamertagToPlatform [] platforms.PSN false
  = Normal (mkIdentity [] platforms.PSN (lit "gamer"))
  ∧ MW.matchInfo always_ok (lit "11378702801403672847") platforms.PSN
    = sendRequest always_ok
        (lit "/crm/cod/v2/title/mw/platform/psn/fullMatch/wz/11378702801403672847/en").
Proof.
  split; [reflexivity|].
  exact (proj2 (matchInfo_fixed_mode_literal unit always_ok games.ModernWarfare
                  modes.Multiplayer (lit "11378702801403672847") platforms.PSN
                  (mkIdentity [] platforms.PSN (lit "gamer")) eq_refl)).
Defined.

(** Resolution on [steam], without and with the allowance. *)
Lemma mapGamertagToPlatform_steam (gamertag : jsstring) :
  mapGamertagToPlatform gamertag platforms.Steam false
  = Throw (Error generics.STEAM_UNSUPPORTED)
  ∧ mapGamertagToPlatform gamertag platforms.Steam true
    = Normal (mkIdentity gamertag platforms.Steam (lit "gamer")).
Proof.
  split.
  - unfold mapGamertagToPlatform.
    rewrite checkForValidPlatform_not_uno; [reflexivity | | discriminate].
    vm_compute. tauto.
  - apply mapGamertagToPlatform_plain; try discriminate. vm_compute. tauto.
Qed.

Lemma withIdentity_steam
    (JSON : Type) (game mode gamertag : jsstring) (dispatch : Endpoints → M JSON) :
  withIdentity game mode gamertag platforms.Steam false dispatch
  = throw (Error generics.STEAM_UNSUPPORTED)
  ∧ withIdentity game mode gamertag platforms.Steam true dispatch
    = dispatch (new_Endpoints game gamertag platforms.Steam mode (lit "gamer")).
Proof.
  destruct (mapGamertagToPlatform_steam gamertag) as [Hno Hyes].
  unfold withIdentity. by rewrite Hno, Hyes.
Qed.

(** C7. Resolution on the platform [steam] throws the
    Steam-not-supported error when the allowance is false, and with the
    allowance it returns the handle unchanged with platform [steam] and
    lookup kind [gamer].  The allowance is false, by default, in every
    exported method that takes a platform but [ALT.search]: on [steam] each of
    them throws that error before any dispatch, and [ALT.search], which
    passes the allowance, reaches the dispatcher with the search path. *)
Theorem steam_needs_allowance (gamertag : jsstring) :
  mapGamertagToPlatform gamertag platforms.Steam false
  = Throw (Error generics.STEAM_UNSUPPORTED)
  ∧ mapGamertagToPlatform gamertag platforms.Steam true
    = Normal (mkIdentity gamertag platforms.Steam (lit "gamer"))
  ∧ (∀ (JSON : Type) (upstream : list Request → Request → option (Response JSON))
       (c : platformCall),
       invoke upstream c platforms.Steam
       = match c with
         | ALT_search handle =>
             sendRequest upstream
               (lit "/crm/cod/v2/platform/steam/username/" ++ handle ++ lit "/search")
         | _ => throw (Error generics.STEAM_UNSUPPORTED)
         end).
Proof.
  destruct (mapGamertagToPlatform_steam gamertag) as [Hno Hyes].
  split; [exact Hno|]. split; [exact Hyes|].
  intros JSON upstream c.
  destruct c;
    first [ refine (proj1 (withIdentity_steam _ _ _ _ _))
          | refine (proj2 (withIdentity_steam _ _ _ _ _)) ].
Qed.

(** ** The two logins *)

Lemma trimStart_blank (s : jsstring) :
  forallb isStrWhiteSpaceChar s = true → trimStart s = [].
Proof.
  induction s as [|c r IH]; simpl; [done|].
  intros [Hc Hr]%andb_true_iff. rewrite Hc. auto.
Qed.

Lemma trim_blank (s : jsstring) :
  forallb isStrWhiteSpaceChar s = true → trim s = [].
Proof. intros H. unfold trim. by rewrite trimStart_blank. Qed.

Section Logins.
Context {JSON : Type}.
Variable umbrella_accessToken : JSON → option jsstring.
Variable error_msg : JSON → option jsstring.
Variable upstream : list Request → Request → option (Response JSON).

(** C2. Both logins fail closed.  [login] of a token made of white space
    only, the empty token included, returns false; [telescopeLogin] with an
    empty user name or an empty password returns false.  In each case the
    world after the call is the world before it: no module variable is
    assigned and nothing is put on the wire. *)
Theorem logins_fail_closed (w : World) :
  (∀ ssoToken : jsstring,
     forallb isStrWhiteSpaceChar ssoToken = true →
     login ssoToken w = (Normal false, w))
  ∧ (∀ username password : jsstring,
       username = [] ∨ password = [] →
       telescopeLogin umbrella_accessToken error_msg upstream username password w
       = (Normal false, w)).
Proof.
  split.
  - intros tok Hblank. unfold login.
    rewrite (trim_blank tok Hblank). simpl. by rewrite orb_true_r.
  - intros u p [-> | ->]; unfold telescopeLogin; simpl; [done|].
    by rewrite orb_true_r.
Qed.

End Logins.

Lemma logins_fail_closed_witness :
  login [] initialWorld = (Normal false, initialWorld)
  ∧ login (lit "   ") initialWorld = (Normal false, initialWorld)
  ∧ telescopeLogin (λ _ : unit, None) (λ _, None) always_ok
      (lit "user@example.com") [] initialWorld = (Normal false, initialWorld)
  ∧ telescopeLogin (λ _ : unit, None) (λ _, None) always_ok
      [] (lit "hunter2") initialWorld = (Normal false, initialWorld).
Proof.
  pose proof (logins_fail_closed (λ _ : unit, None) (λ _, None) always_ok initialWorld)
    as [Hl Ht].
  split; [|split; [|split]].
  - apply Hl. reflexivity.
  - apply Hl. reflexivity.
  - apply Ht. right. reflexivity.
  - apply Ht. left. reflexivity.
Defined.

(** ** Runs: what the actions leave untouched *)

Ltac lookup_inserts :=
  repeat first [rewrite lookup_insert_eq | rewrite lookup_insert_ne by done].

(** Use what the outside answers to the call in the goal. *)
Ltac answer_with H :=
  match goal with
  | |- context [?up ?calls ?r] =>
      match type of H with
      | up calls _ = ?a =>
          let E := fresh "E" in
          assert (E : up calls r = a) by exact H; rewrite E; clear E
      end
  end.

Ltac run_M :=
  unfold_M; unfold request, json; unfold_M; simpl;
  repeat (case_match; simplify_eq/=); try done.

Section Sessions.
Context {JSON : Type}.
Variable umbrella_accessToken : JSON → option jsstring.
Variable error_msg : JSON → option jsstring.
Variable upstream : list Request → Request → option (Response JSON).

Local Abbreviation telescopeLogin' := (telescopeLogin umbrella_accessToken error_msg upstream).
Local Abbreviation perform' := (perform umbrella_accessToken error_msg upstream).
Local Abbreviation reachable' := (reachable umbrella_accessToken error_msg upstream).

Lemma telescopeLogin_legacyPart (u p : jsstring) (w : World) :
  legacyPart (globals (snd (telescopeLogin' u p w))) = legacyPart (globals w).
Proof. unfold telescopeLogin. run_M. Qed.

Lemma sendRequest_legacyPart (url : jsstring) (w : World) :
  legacyPart (globals (snd (sendRequest upstream url w))) = legacyPart (globals w).
Proof. unfold sendRequest. run_M. Qed.

Lemma sendPostRequest_legacyPart (url data : jsstring) (w : World) :
  legacyPart (globals (snd (sendPostRequest upstream url data w))) = legacyPart (globals w).
Proof. unfold sendPostRequest. run_M. Qed.

Lemma sendTelescopeRequest_legacyPart (url : jsstring) (w : World) :
  legacyPart (globals (snd (sendTelescopeRequest upstream url w))) = legacyPart (globals w).
Proof. unfold sendTelescopeRequest. run_M. Qed.

Lemma login_frame (ssoToken : jsstring) (w : World) (k : string) :
  k ∉ loginKeys →
  baseHeaders (globals (snd (login ssoToken w))) !! k = baseHeaders (globals w) !! k
  ∧ basePostHeaders (globals (snd (login ssoToken w))) !! k
    = basePostHeaders (globals w) !! k.
Proof.
  intros Hk. unfold login. case_match; [done|]. simpl.
  unfold loginKeys in Hk. rewrite !not_elem_of_cons in Hk.
  destruct Hk as (? & ? & ? & ? & ? & ? & _).
  by rewrite !lookup_insert_ne.
Qed.

Lemma reachable_initial_outside_loginKeys (w : World) :
  reachable' w → initial_outside_loginKeys (globals w).
Proof.
  induction 1 as [|w a Hw IH]; [done|].
  intros k Hk. specialize (IH k Hk).
  assert (Hpart : ∀ w', legacyPart (globals w') = legacyPart (globals w) →
            baseHeaders (globals w') !! k = baseHeaders initialGlobals !! k
            ∧ basePostHeaders (globals w') !! k = basePostHeaders initialGlobals !! k).
  { intros w' [= -> -> _]. exact IH. }
  destruct a; simpl.
  - destruct (login_frame ssoToken w k Hk) as [-> ->]. exact IH.
  - apply Hpart, telescopeLogin_legacyPart.
  - exact IH.
  - exact IH.
  - apply Hpart, sendRequest_legacyPart.
  - apply Hpart, sendPostRequest_legacyPart.
  - apply Hpart, sendTelescopeRequest_legacyPart.
Qed.

(** The adapter methods stay inside the reachable worlds: one either throws
    in resolution, leaving the world as it is, or runs its dispatcher. *)
Lemma withIdentity_reachable (game mode handle platform : jsstring)
    (steamSupport : bool) (dispatch : Endpoints → M JSON) (w : World) :
  reachable' w →
  (∀ endpoint, reachable' (snd (dispatch endpoint w))) →
  reachable' (snd (withIdentity game mode handle platform steamSupport dispatch w)).
Proof.
  intros Hw Hd. unfold withIdentity. unfold_M.
  destruct (mapGamertagToPlatform handle platform steamSupport) as [[g p l]|e]; simpl.
  - apply Hd.
  - exact Hw.
Qed.

Lemma invoke_reachable (c : platformCall) (platform : jsstring) (w : World) :
  reachable' w → reachable' (snd (invoke upstream c platform w)).
Proof.
  intros Hw.
  destruct c; apply withIdentity_reachable; try done; intros endpoint;
    first [ exact (reachable_perform _ _ _ w (AsendRequest _) Hw)
          | exact (reachable_perform _ _ _ w (AsendPostRequest _ _) Hw) ].
Qed.

Lemma trim_nonempty (s : jsstring) : trim s ≠ [] → truthy s = true.
Proof. destruct s; [intros H; by destruct H | done]. Qed.

(** C9. In every world the module can be in, [login] of a token whose
    trimmed form is not empty returns true, sets [loggedIn], and puts nothing
    on the wire; the token is stored as given, and the two legacy header
    objects it leaves are those the same token yields from the initial world:
    they depend on the token and on nothing else.  Nothing about the token
    is checked beyond its being non-blank. *)
Theorem login_is_local_and_token_determined (w : World) (ssoToken : jsstring) :
  reachable' w →
  trim ssoToken ≠ [] →
  ∃ g' : Globals,
    login ssoToken w = (Normal true, {| globals := g'; wire := wire w |})
    ∧ loggedIn g' = true
    ∧ baseSsoToken g' = ssoToken
    ∧ baseHeaders g' = baseHeaders (globals (snd (login ssoToken initialWorld)))
    ∧ basePostHeaders g' = basePostHeaders (globals (snd (login ssoToken initialWorld)))
    ∧ baseHeaders g' !! "Atvi-Auth"%string = Some ssoToken
    ∧ baseHeaders g' !! "cookie"%string = Some (loginCookie ssoToken).
Proof.
  intros Hreach Htrim.
  pose proof (reachable_initial_outside_loginKeys w Hreach) as Hinv.
  pose proof (trim_nonempty _ Htrim) as Htruthy.
  assert (Hlen : (length (trim ssoToken) <=? 0)%nat = false).
  { destruct (trim ssoToken); [done | reflexivity]. }
  unfold login. rewrite Htruthy, Hlen. simpl.
  eexists. split; [reflexivity|]. simpl.
  split; [done|]. split; [done|].
  split; [|split; [|split]].
  - apply map_eq. intros k. destruct (decide (k ∈ loginKeys)) as [Hk|Hk].
    + unfold loginKeys in Hk. rewrite !elem_of_cons in Hk.
      destruct Hk as [->|[->|[->|[->|[->|[->|Hk]]]]]];
        [by lookup_inserts..|by inversion Hk].
    + pose proof (Hinv k Hk) as [Hb _].
      unfold loginKeys in Hk. rewrite !not_elem_of_cons in Hk.
      destruct Hk as (? & ? & ? & ? & ? & ? & _).
      rewrite !lookup_insert_ne by done. exact Hb.
  - apply map_eq. intros k. destruct (decide (k ∈ loginKeys)) as [Hk|Hk].
    + unfold loginKeys in Hk. rewrite !elem_of_cons in Hk.
      destruct Hk as [->|[->|[->|[->|[->|[->|Hk]]]]]];
        [by lookup_inserts..|by inversion Hk].
    + pose proof (Hinv k Hk) as [_ Hb].
      unfold loginKeys in Hk. rewrite !not_elem_of_cons in Hk.
      destruct Hk as (? & ? & ? & ? & ? & ? & _).
      rewrite !lookup_insert_ne by done. exact Hb.
  - by lookup_inserts.
  - by lookup_inserts.
Qed.

(** C1, as the code has it.  One variable, [loggedIn], guards both
    backends, in every world and so after every sequence of logins.  While it
    is false each of the three dispatchers throws its not-logged-in [Error]
    and leaves the world as it was; while it is true each of them puts its
    call on the wire and does not throw that error.  [login] of a non-blank
    token sets it.  A [telescopeLogin] with both credentials given that
    returns sets it to whether the answer had status 200, and returns that;
    one that throws leaves it as it was; one with an empty user name or an
    empty password returns false and leaves the whole world, the flag
    included, as it was. *)
Theorem one_flag_guards_both_backends (w : World) (url data : jsstring) :
  (loggedIn (globals w) = false →
     sendRequest upstream url w = (Throw (Error (lit "Not Logged In.")), w)
     ∧ sendPostRequest upstream url data w = (Throw (Error (lit "Not Logged In.")), w)
     ∧ sendTelescopeRequest upstream url w = (Throw (Error (lit "Not Logged In!")), w))
  ∧ (loggedIn (globals w) = true →
     (wire (snd (sendRequest upstream url w)) = wire w ++ [legacyGet (globals w) url]
      ∧ fst (sendRequest upstream url w) ≠ Throw (Error (lit "Not Logged In.")))
     ∧ (wire (snd (sendPostRequest upstream url data w))
        = wire w ++ [legacyPost (globals w) url data]
        ∧ fst (sendPostRequest upstream url data w) ≠ Throw (Error (lit "Not Logged In.")))
     ∧ (wire (snd (sendTelescopeRequest upstream url w))
        = wire w ++ [telescopeGet (globals w) url]
        ∧ fst (sendTelescopeRequest upstream url w) ≠ Throw (Error (lit "Not Logged In!"))))
  ∧ (∀ ssoToken : jsstring,
       trim ssoToken ≠ [] → loggedIn (globals (snd (login ssoToken w))) = true)
  ∧ (∀ (username password : jsstring) (b : bool) (w' : World),
       telescopeLogin' username password w = (Normal b, w') →
       username ≠ [] → password ≠ [] →
       ∃ resp : Response JSON,
         upstream (wire w) (telescopeLoginCall (globals w) username password) = Some resp
         ∧ b = (statusCode resp =? 200)%Z
         ∧ loggedIn (globals w') = b)
  ∧ (∀ (username password : jsstring) (e : exn) (w' : World),
       telescopeLogin' username password w = (Throw e, w') →
       loggedIn (globals w') = loggedIn (globals w))
  ∧ (∀ username password : jsstring,
       username = [] ∨ password = [] →
       telescopeLogin' username password w = (Normal false, w)).
Proof.
  split; [|split; [|split; [|split; [|split]]]].
  - intros Hout. unfold sendRequest, sendPostRequest, sendTelescopeRequest.
    unfold_M. by rewrite Hout.
  - intros Hin. unfold sendRequest, sendPostRequest, sendTelescopeRequest,
      legacyGet, legacyPost, telescopeGet.
    unfold_M. rewrite Hin. simpl. unfold request, json, statusMessage. unfold_M. simpl.
    repeat split; repeat (case_match; simplify_eq/=); done.
  - intros tok Htrim. unfold login.
    rewrite (trim_nonempty _ Htrim). destruct (trim tok); [done|]. reflexivity.
  - intros u p b w' Hrun Hu Hp. unfold telescopeLogin, telescopeLoginCall in *.
    destruct u; [done|]. destruct p; [done|]. simpl in Hrun.
    revert Hrun. unfold_M. unfold request, json. unfold_M. simpl.
    destruct (upstream _ _) as [resp|]; [|done].
    intros Hrun. exists resp. split; [done|].
    repeat (case_match; simplify_eq/=); done.
  - intros u p e w' Hrun. unfold telescopeLogin in Hrun.
    revert Hrun. run_M; by intros [= <- <-].
  - intros u p [-> | ->]; unfold telescopeLogin; simpl; [done|].
    by rewrite orb_true_r.
Qed.

(** ** The dispatchers *)

(** C8. For a call that is dispatched (the module is logged in) and
    answered, on either backend and for the POST dispatcher too: an answer
    with status 500 or more throws an [Error] whose message has the decimal
    status code inside it, whatever the body holds; an answer below 500
    whose body is not JSON throws a [SyntaxError], which is not that
    [Error]; an answer below 500 with a JSON body returns the parsed value
    as it is. *)
Theorem dispatch_classifies_status_then_body
    (w : World) (url data : jsstring) (resp : Response JSON) :
  loggedIn (globals w) = true →
  (upstream (wire w) (legacyGet (globals w) url) = Some resp →
     classified resp (fst (sendRequest upstream url w)))
  ∧ (upstream (wire w) (telescopeGet (globals w) url) = Some resp →
     classified resp (fst (sendTelescopeRequest upstream url w)))
  ∧ (upstream (wire w) (legacyPost (globals w) url data) = Some resp →
     classified resp (fst (sendPostRequest upstream url data w)))
  ∧ (∃ pre post : jsstring,
       statusMessage (statusCode resp)
       = pre ++ number_toString (statusCode resp) ++ post)
  ∧ Throw (A := JSON) SyntaxError ≠ Throw (Error (statusMessage (statusCode resp))).
Proof.
  intros Hin.
  assert (Hge : ∀ z : Z, (500 ≤ z)%Z → (z >=? 500)%Z = true) by (intros; lia).
  assert (Hlt : ∀ z : Z, (z < 500)%Z → (z >=? 500)%Z = false) by (intros; lia).
  split; [|split; [|split; [|split]]].
  - intros Hup. unfold sendRequest, legacyGet in *. unfold_M. rewrite Hin. cbn.
    unfold request. cbn. answer_with Hup. unfold classified, json. unfold_M.
    split; [|split].
    + intros H. by rewrite (Hge _ H).
    + intros H Hb. by rewrite (Hlt _ H), Hb.
    + intros H v Hb. by rewrite (Hlt _ H), Hb.
  - intros Hup. unfold sendTelescopeRequest, telescopeGet in *. unfold_M.
    rewrite Hin. cbn.
    unfold request. cbn. answer_with Hup. unfold classified, json. unfold_M.
    split; [|split].
    + intros H. by rewrite (Hge _ H).
    + intros H Hb. by rewrite (Hlt _ H), Hb.
    + intros H v Hb. by rewrite (Hlt _ H), Hb.
  - intros Hup. unfold sendPostRequest, legacyPost in *. unfold_M. rewrite Hin. cbn.
    unfold request. cbn. answer_with Hup. unfold classified, json. unfold_M.
    split; [|split].
    + intros H. by rewrite (Hge _ H).
    + intros H Hb. by rewrite (Hlt _ H), Hb.
    + intros H v Hb. by rewrite (Hlt _ H), Hb.
  - by eexists _, _.
  - discriminate.
Qed.

End Sessions.

Lemma login_is_local_and_token_determined_witness :
  let quiet := (λ _ : unit, @None jsstring) in
  let w := perform quiet quiet always_ok (Alogin (lit "OLD")) initialWorld in
  reachable quiet quiet always_ok w
  ∧ trim (lit " TOK ") ≠ []
  ∧ ∃ g' : Globals,
      login (lit " TOK ") w = (Normal true, {| globals := g'; wire := wire w |})
      ∧ loggedIn g' = true
      ∧ baseSsoToken g' = lit " TOK "
      ∧ baseHeaders g' = baseHeaders (globals (snd (login (lit " TOK ") initialWorld)))
      ∧ basePostHeaders g'
        = basePostHeaders (globals (snd (login (lit " TOK ") initialWorld)))
      ∧ baseHeaders g' !! "Atvi-Auth"%string = Some (lit " TOK ")
      ∧ baseHeaders g' !! "cookie"%string = Some (loginCookie (lit " TOK ")).
Proof.
  intros quiet w.
  assert (Hreach : reachable quiet quiet always_ok w).
  { apply reachable_perform, reachable_initial. }
  assert (Htrim : trim (lit " TOK ") ≠ []) by (vm_compute; discriminate).
  split; [exact Hreach|]. split; [exact Htrim|].
  exact (login_is_local_and_token_determined quiet quiet always_ok w (lit " TOK ")
           Hreach Htrim).
Defined.

(** C1 as stated fails.  From the initial world, after a legacy login
    alone (no telescope login was ever attempted), the telescope title
    [MW2.fullData] is not refused: it is dispatched and returns what the
    outside answers.  And after that legacy login, a telescope login that the
    outside answers with 401 returns false and leaves [MW.fullData], a
    legacy operation, refused as not logged in. *)
Lemma auth_states_not_independent :
  let quiet := (λ _ : unit, @None jsstring) in
  let w1 := snd (login (lit "TOK") initialWorld) in
  let w2 :=
    snd (telescopeLogin quiet quiet (answering 401 None) (lit "user") (lit "pass") w1) in
  fst (login (lit "TOK") initialWorld) = Normal true
  ∧ fst (MW2.fullData always_ok (lit "123") w1) = Normal tt
  ∧ fst (telescopeLogin quiet quiet (answering 401 None) (lit "user") (lit "pass") w1)
    = Normal false
  ∧ fst (MW.fullData (answering 401 None) (lit "gamer") platforms.PSN w1) = Throw SyntaxError
  ∧ fst (MW.fullData (answering 401 None) (lit "gamer") platforms.PSN w2)
    = Throw (Error (lit "Not Logged In.")).
Proof. vm_compute. repeat split. Qed.

Lemma one_flag_guards_both_backends_witness :
  let quiet := (λ _ : unit, @None jsstring) in
  let w1 := snd (login (lit "TOK") initialWorld) in
  let refused := telescopeLogin quiet quiet (answering 401 None) (lit "user") (lit "pass") w1 in
  let garbled := telescopeLogin quiet quiet (answering 200 None) (lit "user") (lit "pass") w1 in
  (loggedIn (globals initialWorld) = false
   ∧ sendRequest always_ok (lit "/x") initialWorld
     = (Throw (Error (lit "Not Logged In.")), initialWorld)
   ∧ sendPostRequest always_ok (lit "/x") (lit "{}") initialWorld
     = (Throw (Error (lit "Not Logged In.")), initialWorld)
   ∧ sendTelescopeRequest always_ok (lit "/x") initialWorld
     = (Throw (Error (lit "Not Logged In!")), initialWorld))
  ∧ (loggedIn (globals w1) = true
     ∧ wire (snd (sendTelescopeRequest always_ok (lit "/x") w1))
       = wire w1 ++ [telescopeGet (globals w1) (lit "/x")]
     ∧ fst (sendTelescopeRequest always_ok (lit "/x") w1)
       ≠ Throw (Error (lit "Not Logged In!")))
  ∧ (trim (lit "TOK") ≠ [] ∧ loggedIn (globals w1) = true)
  ∧ (refused = (Normal false, snd refused)
     ∧ lit "user" ≠ [] ∧ lit "pass" ≠ []
     ∧ ∃ resp : Response unit,
         answering 401 None (wire w1)
           (telescopeLoginCall (globals w1) (lit "user") (lit "pass")) = Some resp
         ∧ false = (statusCode resp =? 200)%Z
         ∧ loggedIn (globals (snd refused)) = false)
  ∧ (garbled = (Throw SyntaxError, snd garbled)
     ∧ loggedIn (globals (snd garbled)) = loggedIn (globals w1))
  ∧ ((lit "user" = [] ∨ @nil N = [])
     ∧ telescopeLogin quiet quiet always_ok (lit "user") [] w1 = (Normal false, w1)).
Proof.
  intros quiet w1 refused garbled.
  pose proof (one_flag_guards_both_backends quiet quiet always_ok initialWorld
                (lit "/x") (lit "{}")) as (Hout & _ & Hlogin & _).
  pose proof (one_flag_guards_both_backends quiet quiet always_ok w1
                (lit "/x") (lit "{}")) as (_ & Hin & _ & _ & _ & Hempty).
  pose proof (one_flag_guards_both_backends quiet quiet (answering 401 None) w1
                (lit "/x") (lit "{}")) as (_ & _ & _ & Hreturns & _).
  pose proof (one_flag_guards_both_backends quiet quiet (answering 200 None) w1
                (lit "/x") (lit "{}")) as (_ & _ & _ & _ & Hthrows & _).
  assert (H0 : loggedIn (globals initialWorld) = false) by reflexivity.
  assert (H1 : loggedIn (globals w1) = true) by reflexivity.
  assert (Ht : trim (lit "TOK") ≠ []) by (vm_compute; discriminate).
  assert (Hr : refused = (Normal false, snd refused)) by reflexivity.
  assert (Hg : garbled = (Throw SyntaxError, snd garbled)) by reflexivity.
  assert (Hu : lit "user" ≠ []) by discriminate.
  assert (Hp : lit "pass" ≠ []) by discriminate.
  assert (He : lit "user" = [] ∨ @nil N = []) by (by right).
  split; [|split; [|split; [|split; [|split]]]].
  - split; [exact H0 | exact (Hout H0)].
  - split; [exact H1 | exact (proj2 (proj2 (Hin H1)))].
  - split; [exact Ht | exact (Hlogin (lit "TOK") Ht)].
  - split; [exact Hr|]. split; [exact Hu|]. split; [exact Hp|].
    exact (Hreturns (lit "user") (lit "pass") false (snd refused) Hr Hu Hp).
  - split; [exact Hg|].
    exact (Hthrows (lit "user") (lit "pass") SyntaxError (snd garbled) Hg).
  - split; [exact He | exact (Hempty (lit "user") [] He)].
Defined.

Lemma dispatch_classifies_status_then_body_witness :
  let quiet := (λ _ : unit, @None jsstring) in
  let w := snd (login (lit "TOK") initialWorld) in
  loggedIn (globals w) = true
  ∧ fst (sendRequest (answering 503 (Some tt)) (lit "/x") w)
    = Throw (Error (lit "Received status code: '503'. Route may be down or not exist."))
  ∧ fst (sendTelescopeRequest (answering 200 None) (lit "/x") w) = Throw SyntaxError
  ∧ fst (sendPostRequest (answering 404 (Some tt)) (lit "/x") (lit "{}") w) = Normal tt.
Proof.
  intros quiet w.
  assert (Hin : loggedIn (globals w) = true) by reflexivity.
  split; [exact Hin|]. split; [|split].
  - destruct (dispatch_classifies_status_then_body (answering 503 (Some tt)) w
                (lit "/x") (lit "{}") (mkResponse 503%Z (Some tt)) Hin)
      as (Hget & _).
    destruct (Hget eq_refl) as (H500 & _). apply H500. simpl. lia.
  - destruct (dispatch_classifies_status_then_body (answering 200 None) w
                (lit "/x") (lit "{}") (mkResponse 200%Z None) Hin)
      as (_ & Htel & _).
    destruct (Htel eq_refl) as (_ & Hbad & _). apply Hbad; [simpl; lia | reflexivity].
  - destruct (dispatch_classifies_status_then_body (answering 404 (Some tt)) w
                (lit "/x") (lit "{}") (mkResponse 404%Z (Some tt)) Hin)
      as (_ & _ & Hpost & _).
    destruct (Hpost eq_refl) as (_ & _ & Hgood). apply Hgood; [simpl; lia | reflexivity].
Defined.

(** ** Numeric handles *)

Ltac chars :=
  unfold not_surrogate, isStrWhiteSpaceChar, isHexDigit, isOctalDigit, isBinaryDigit,
    isDigit, isLeadSurrogate, isTrailSurrogate, isUriUnescaped in *;
  rewrite ?orb_true_iff, ?andb_true_iff, ?orb_false_iff, ?andb_false_iff,
    ?N.eqb_eq, ?N.leb_le, ?N.ltb_lt, ?N.leb_gt, ?N.eqb_neq in *;
  lia.

Lemma span_spec (p : N → bool) (s a b : jsstring) :
  span p s = (a, b) → s = a ++ b ∧ forallb p a = true.
Proof.
  revert a b. induction s as [|c r IH]; simpl; intros a b.
  - by intros [= <- <-].
  - destruct (p c) eqn:Hc.
    + destruct (span p r) as [a' b'] eqn:Hs. intros [= <- <-].
      destruct (IH a' b' eq_refl) as [-> Ha]. simpl. by rewrite Hc, Ha.
    + by intros [= <- <-].
Qed.

Lemma forallb_not_surrogate (p : N → bool) (s : jsstring) :
  (∀ c, p c = true → not_surrogate c) →
  forallb p s = true → Forall not_surrogate s.
Proof.
  intros Hp. induction s as [|c r IH]; simpl; [constructor|].
  intros [Hc Hr]%andb_true_iff. constructor; auto.
Qed.

Lemma some_all_not_surrogate (p : N → bool) (s : jsstring) :
  (∀ c, p c = true → not_surrogate c) →
  some_all p s = true → Forall not_surrogate s.
Proof.
  intros Hp [_ H]%andb_true_iff. by apply (forallb_not_surrogate p).
Qed.

Lemma isDigit_not_surrogate (c : N) : isDigit c = true → not_surrogate c.
Proof. chars. Qed.
Lemma isHexDigit_not_surrogate (c : N) : isHexDigit c = true → not_surrogate c.
Proof. chars. Qed.
Lemma isOctalDigit_not_surrogate (c : N) : isOctalDigit c = true → not_surrogate c.
Proof. chars. Qed.
Lemma isBinaryDigit_not_surrogate (c : N) : isBinaryDigit c = true → not_surrogate c.
Proof. chars. Qed.
Lemma isStrWhiteSpaceChar_not_surrogate (c : N) :
  isStrWhiteSpaceChar c = true → not_surrogate c.
Proof. chars. Qed.

Create HintDb chars discriminated.
#[local] Hint Resolve isDigit_not_surrogate isHexDigit_not_surrogate
  isOctalDigit_not_surrogate isBinaryDigit_not_surrogate
  isStrWhiteSpaceChar_not_surrogate : chars.

(** From a test passed by every character to the absence of surrogates. *)
Ltac by_class :=
  first [ eapply some_all_not_surrogate; [|eassumption]
        | eapply forallb_not_surrogate; [|eassumption] ];
  auto with chars.

Lemma isExponentPartOpt_not_surrogate (s : jsstring) :
  isExponentPartOpt s = true → Forall not_surrogate s.
Proof.
  destruct s as [|c r]; simpl; [constructor|].
  intros [Hc Hr]%andb_true_iff. constructor; [chars|].
  destruct r as [|d r']; [done|].
  destruct ((d =? 0x2B) || (d =? 0x2D)) eqn:Hd.
  - constructor; [chars|]. by_class.
  - by_class.
Qed.

Lemma isStrUnsignedDecimalLiteral_not_surrogate (s : jsstring) :
  isStrUnsignedDecimalLiteral s = true → Forall not_surrogate s.
Proof.
  unfold isStrUnsignedDecimalLiteral.
  intros [Hinf | Hnum]%orb_true_iff.
  { apply eqb_true in Hinf. subst s.
    apply (forallb_not_surrogate (λ c, c <? 0x80)); [intros c; chars | reflexivity]. }
  destruct (span isDigit s) as [ip r] eqn:Hs.
  apply span_spec in Hs as [-> Hip].
  apply Forall_app. split; [by_class|].
  destruct r as [|c r1].
  { constructor. }
  destruct (c =? 0x2E) eqn:Hc.
  - destruct (span isDigit r1) as [fp r2] eqn:Hs1.
    apply span_spec in Hs1 as [-> Hfp].
    apply andb_true_iff in Hnum as [_ He].
    constructor; [chars|]. apply Forall_app.
    split; [by_class|].
    by apply isExponentPartOpt_not_surrogate.
  - apply andb_true_iff in Hnum as [_ He].
    by apply isExponentPartOpt_not_surrogate.
Qed.

Lemma isStrDecimalLiteral_not_surrogate (s : jsstring) :
  isStrDecimalLiteral s = true → Forall not_surrogate s.
Proof.
  destruct s as [|c r]; simpl; [done|].
  destruct ((c =? 0x2B) || (c =? 0x2D)) eqn:Hc.
  - intros H. constructor; [chars|].
    by apply isStrUnsignedDecimalLiteral_not_surrogate.
  - apply isStrUnsignedDecimalLiteral_not_surrogate.
Qed.

Lemma isNonDecimalIntegerLiteral_not_surrogate (s : jsstring) :
  isNonDecimalIntegerLiteral s = true → Forall not_surrogate s.
Proof.
  destruct s as [|z [|p r]]; simpl; [done..|].
  intros [Hz H]%andb_true_iff.
  assert (Hp : not_surrogate p ∧ Forall not_surrogate r).
  { destruct ((p =? 0x78) || (p =? 0x58)) eqn:Hx.
    { split; [chars | by_class]. }
    destruct ((p =? 0x6F) || (p =? 0x4F)) eqn:Ho.
    { split; [chars | by_class]. }
    destruct ((p =? 0x62) || (p =? 0x42)) eqn:Hb; [|done].
    split; [chars | by_class]. }
  destruct Hp. constructor; [chars|]. by constructor.
Qed.

Lemma trimStart_not_surrogate (s : jsstring) :
  Forall not_surrogate (trimStart s) → Forall not_surrogate s.
Proof.
  induction s as [|c r IH]; simpl; [done|].
  destruct (isStrWhiteSpaceChar c) eqn:Hc; [|done].
  intros H. constructor; auto with chars.
Qed.

Lemma trim_not_surrogate (s : jsstring) :
  Forall not_surrogate (trim s) → Forall not_surrogate s.
Proof.
  unfold trim, trimEnd. intros H.
  apply trimStart_not_surrogate.
  rewrite <- (rev_involutive (trimStart s)). apply Forall_rev.
  apply trimStart_not_surrogate.
  rewrite <- (rev_involutive (trimStart (rev (trimStart s)))). by apply Forall_rev.
Qed.

(** A string that [Number] converts to a number holds no surrogate. *)
Lemma isStringNumericLiteral_not_surrogate (s : jsstring) :
  isStringNumericLiteral s = true → Forall not_surrogate s.
Proof.
  unfold isStringNumericLiteral. intros H. apply trim_not_surrogate.
  destruct (trim s) as [|c t]; [constructor|].
  apply orb_true_iff in H as [H|H].
  - by apply isStrDecimalLiteral_not_surrogate.
  - by apply isNonDecimalIntegerLiteral_not_surrogate.
Qed.

(** [encodeURIComponent] returns on every string without surrogates. *)
Lemma encodeURIComponent_returns (s : jsstring) :
  Forall not_surrogate s → ∃ t : jsstring, encodeURIComponent s = Normal t.
Proof.
  induction 1 as [|c r Hc Hr [t IH]]; simpl; [by eexists|].
  rewrite IH. unfold mbind, completion_bind.
  destruct (isUriUnescaped c); [by eexists|].
  assert (isTrailSurrogate c = false) as -> by chars.
  assert (isLeadSurrogate c = false) as -> by chars.
  by eexists.
Qed.

(** On a string of unescaped characters it returns the string itself. *)
Lemma encodeURIComponent_unescaped (s : jsstring) :
  forallb isUriUnescaped s = true → encodeURIComponent s = Normal s.
Proof.
  induction s as [|c r IH]; simpl; [done|].
  intros [Hc Hr]%andb_true_iff. by rewrite Hc, IH.
Qed.

Lemma isNaN_Number_false (s : jsstring) :
  isNaN_Number s = false ↔ isStringNumericLiteral s = true.
Proof. unfold isNaN_Number. by destruct (isStringNumericLiteral s). Qed.

Lemma trimStart_unchanged (s : jsstring) :
  forallb (λ c, negb (isStrWhiteSpaceChar c)) s = true → trimStart s = s.
Proof.
  destruct s as [|c r]; simpl; [done|].
  intros [Hc _]%andb_true_iff. by destruct (isStrWhiteSpaceChar c).
Qed.

Lemma forallb_weaken (p q : N → bool) (s : jsstring) :
  (∀ c, p c = true → q c = true) → forallb p s = true → forallb q s = true.
Proof.
  intros Hpq. induction s as [|c r IH]; simpl; [done|].
  intros [Hc Hr]%andb_true_iff. by rewrite (Hpq c Hc), IH.
Qed.

Lemma forallb_rev (p : N → bool) (s : jsstring) :
  forallb p (rev s) = forallb p s.
Proof.
  induction s as [|c r IH]; simpl; [done|].
  rewrite forallb_app, IH. simpl. rewrite andb_true_r. apply andb_comm.
Qed.

Lemma span_all (p : N → bool) (s : jsstring) :
  forallb p s = true → span p s = (s, []).
Proof.
  induction s as [|c r IH]; simpl; [done|].
  intros [Hc Hr]%andb_true_iff. by rewrite Hc, IH.
Qed.

(** A digit string is a numeric literal: [Number] of it is not NaN. *)
Lemma purely_numeric_is_number (s : jsstring) :
  purely_numeric s = true → isNaN_Number s = false.
Proof.
  intros [Hne Hd]%andb_true_iff. apply isNaN_Number_false.
  assert (Hnw : forallb (λ c, negb (isStrWhiteSpaceChar c)) s = true).
  { revert Hd. apply forallb_weaken. intros c Hc.
    destruct (isStrWhiteSpaceChar c) eqn:Hw; [chars|done]. }
  unfold isStringNumericLiteral, trim, trimEnd.
  rewrite (trimStart_unchanged s Hnw).
  rewrite trimStart_unchanged by (by rewrite forallb_rev).
  rewrite rev_involutive.
  destruct s as [|c r]; [done|].
  apply orb_true_iff. left. unfold isStrDecimalLiteral.
  assert ((c =? 0x2B) || (c =? 0x2D) = false) as ->.
  { simpl in Hd. apply andb_true_iff in Hd as [Hc _]. chars. }
  unfold isStrUnsignedDecimalLiteral. apply orb_true_iff. right.
  by rewrite (span_all isDigit (c :: r) Hd).
Qed.

(** Resolution on [uno] and on [acti], for a handle [Number] accepts. *)
Lemma mapGamertagToPlatform_uno_numeric (handle : jsstring) (steamSupport : bool) :
  handle = [] ∨ isNaN_Number handle = false →
  ∃ encoded : jsstring,
    encodeURIComponent handle = Normal encoded
    ∧ mapGamertagToPlatform handle platforms.Uno steamSupport
      = Normal (mkIdentity encoded platforms.Uno (lit "id")).
Proof.
  intros Hh.
  assert (Hs : Forall not_surrogate handle).
  { destruct Hh as [-> | Hn]; [constructor|].
    by apply isStringNumericLiteral_not_surrogate, isNaN_Number_false. }
  destruct (encodeURIComponent_returns handle Hs) as [t Ht].
  exists t. split; [done|].
  unfold mapGamertagToPlatform, checkForValidPlatform.
  assert (truthy handle && isNaN_Number handle = false) as ->.
  { destruct Hh as [-> | ->]; [done | apply andb_false_r]. }
  replace (includes platforms.values platforms.Uno) with true by reflexivity.
  replace (negb steamSupport && eqb platforms.Uno platforms.Steam) with false
    by (by destruct steamSupport).
  cbn -[encodeURIComponent lit]. unfold cleanClientName.
  destruct handle as [|c r]; [by simplify_eq/=|].
  cbn -[encodeURIComponent lit]. rewrite Ht. reflexivity.
Qed.

Lemma mapGamertagToPlatform_acti (handle encoded : jsstring) (steamSupport : bool) :
  encodeURIComponent handle = Normal encoded →
  mapGamertagToPlatform handle platforms.Activision steamSupport
  = Normal (mkIdentity encoded platforms.Uno (lit "gamer")).
Proof.
  intros Ht. unfold mapGamertagToPlatform.
  rewrite checkForValidPlatform_not_uno; [| vm_compute; tauto | discriminate].
  replace (negb steamSupport && eqb platforms.Activision platforms.Steam) with false
    by (by destruct steamSupport).
  cbn -[encodeURIComponent lit]. unfold cleanClientName.
  destruct handle as [|c r]; [by simplify_eq/=|].
  cbn -[encodeURIComponent lit]. rewrite Ht. reflexivity.
Qed.

(** A purely numeric handle resolves to itself on [uno]. *)
Lemma mapGamertagToPlatform_uno_digits (handle : jsstring) (steamSupport : bool) :
  purely_numeric handle = true →
  mapGamertagToPlatform handle platforms.Uno steamSupport
  = Normal (mkIdentity handle platforms.Uno (lit "id")).
Proof.
  intros Hpn. pose proof (purely_numeric_is_number handle Hpn) as Hn.
  destruct (mapGamertagToPlatform_uno_numeric handle steamSupport (or_intror Hn))
    as (t & Henc & Ht).
  rewrite encodeURIComponent_unescaped in Henc.
  - by simplify_eq.
  - apply andb_true_iff in Hpn as [_ Hd]. revert Hd.
    apply forallb_weaken. intros c Hc. unfold isUriUnescaped. rewrite Hc.
    by rewrite !orb_true_r.
Qed.

(** C3, as the code has it.  On the platform [uno], validation and
    resolution throw the numerical-ID error exactly when the handle is not
    empty and [Number] of it is NaN; every other handle resolves, with lookup
    kind [id].  A purely numeric handle is never rejected, and resolves to
    itself: whatever is rejected is not purely numeric. *)
Theorem uno_rejects_what_Number_rejects (handle : jsstring) (steamSupport : bool) :
  (checkForValidPlatform platforms.Uno handle = Throw (Error generics.UNO_NO_NUMERICAL_ID)
   ↔ handle ≠ [] ∧ isNaN_Number handle = true)
  ∧ (mapGamertagToPlatform handle platforms.Uno steamSupport
     = Throw (Error generics.UNO_NO_NUMERICAL_ID)
     ↔ handle ≠ [] ∧ isNaN_Number handle = true)
  ∧ (handle = [] ∨ isNaN_Number handle = false →
     ∃ encoded : jsstring,
       mapGamertagToPlatform handle platforms.Uno steamSupport
       = Normal (mkIdentity encoded platforms.Uno (lit "id")))
  ∧ (purely_numeric handle = true →
     mapGamertagToPlatform handle platforms.Uno steamSupport
     = Normal (mkIdentity handle platforms.Uno (lit "id"))).
Proof.
  assert (Hthrow : handle ≠ [] ∧ isNaN_Number handle = true →
            checkForValidPlatform platforms.Uno handle
            = Throw (Error generics.UNO_NO_NUMERICAL_ID)).
  { intros [Hne Hnan]. unfold checkForValidPlatform. rewrite Hnan.
    destruct handle; [done | reflexivity]. }
  assert (Hcases : (handle ≠ [] ∧ isNaN_Number handle = true)
                   ∨ (handle = [] ∨ isNaN_Number handle = false)).
  { destruct handle; [right; by left|].
    destruct (isNaN_Number (n :: handle)); [left | right; right]; done. }
  assert (Hok : handle = [] ∨ isNaN_Number handle = false →
            ∃ encoded : jsstring,
              encodeURIComponent handle = Normal encoded
              ∧ mapGamertagToPlatform handle platforms.Uno steamSupport
                = Normal (mkIdentity encoded platforms.Uno (lit "id"))).
  { apply mapGamertagToPlatform_uno_numeric. }
  split; [|split; [|split]].
  - split; [|exact Hthrow].
    intros Hc. destruct Hcases as [|Hacc]; [done|]. exfalso.
    unfold checkForValidPlatform in Hc.
    replace (includes platforms.values platforms.Uno) with true in Hc by reflexivity.
    destruct Hacc as [-> | Hn]; [done|].
    rewrite Hn, andb_false_r in Hc. done.
  - split.
    + intros Hc. destruct Hcases as [|Hacc]; [done|]. exfalso.
      destruct (Hok Hacc) as (t & _ & Ht). congruence.
    + intros H. unfold mapGamertagToPlatform. by rewrite (Hthrow H).
  - intros Hacc. destruct (Hok Hacc) as (t & _ & Ht). by exists t.
  - apply mapGamertagToPlatform_uno_digits.
Qed.

Lemma uno_rejects_what_Number_rejects_witness :
  (lit "gamer#1234" ≠ [] ∧ isNaN_Number (lit "gamer#1234") = true)
  ∧ mapGamertagToPlatform (lit "gamer#1234") platforms.Uno false
    = Throw (Error generics.UNO_NO_NUMERICAL_ID)
  ∧ purely_numeric (lit "1234567") = true
  ∧ mapGamertagToPlatform (lit "1234567") platforms.Uno false
    = Normal (mkIdentity (lit "1234567") platforms.Uno (lit "id")).
Proof.
  assert (H1 : lit "gamer#1234" ≠ [] ∧ isNaN_Number (lit "gamer#1234") = true).
  { split; [discriminate | reflexivity]. }
  assert (H2 : purely_numeric (lit "1234567") = true) by reflexivity.
  split; [exact H1|]. split; [|split; [exact H2|]].
  - apply (proj2 (proj1 (proj2 (uno_rejects_what_Number_rejects (lit "gamer#1234") false)))).
    exact H1.
  - apply (proj2 (proj2 (proj2 (uno_rejects_what_Number_rejects (lit "1234567") false)))).
    exact H2.
Defined.

(** C3 as stated fails: the handles Infinity, 0x1F, -5, 1e3 and a single
    space are not empty and not purely numeric, and resolution on [uno]
    accepts each of them. *)
Lemma uno_accepts_handles_that_are_not_purely_numeric :
  Forall
    (λ '(handle, encoded),
       handle ≠ [] ∧ purely_numeric handle = false
       ∧ checkForValidPlatform platforms.Uno handle = Normal tt
       ∧ mapGamertagToPlatform handle platforms.Uno false
         = Normal (mkIdentity encoded platforms.Uno (lit "id")))
    [(lit "Infinity", lit "Infinity"); (lit "0x1F", lit "0x1F"); (lit "-5", lit "-5");
     (lit "1e3", lit "1e3"); (lit " ", lit "%20")].
Proof. repeat constructor; discriminate. Qed.

(** C4. For every handle that [Number] accepts, and so for every purely
    numeric one, resolution on [acti] and on [uno] both return, with the same
    handle and the same platform [uno] for the path; the lookup kind is
    [gamer] on [acti] and [id] on [uno].  A purely numeric handle comes back
    unchanged. *)
Theorem acti_and_uno_share_the_wire_platform (handle : jsstring) (steamSupport : bool) :
  purely_numeric handle = true ∨ isNaN_Number handle = false →
  ∃ encoded : jsstring,
    mapGamertagToPlatform handle platforms.Activision steamSupport
    = Normal (mkIdentity encoded platforms.Uno (lit "gamer"))
    ∧ mapGamertagToPlatform handle platforms.Uno steamSupport
      = Normal (mkIdentity encoded platforms.Uno (lit "id"))
    ∧ handleLookupType platforms.Activision = lit "gamer"
    ∧ handleLookupType platforms.Uno = lit "id"
    ∧ lit "gamer" ≠ lit "id"
    ∧ (purely_numeric handle = true → encoded = handle).
Proof.
  intros Hnum.
  assert (Hn : isNaN_Number handle = false).
  { destruct Hnum as [Hpn | Hn]; [by apply purely_numeric_is_number | done]. }
  destruct (mapGamertagToPlatform_uno_numeric handle steamSupport (or_intror Hn))
    as (t & Henc & Ht).
  exists t. split; [by apply mapGamertagToPlatform_acti|].
  split; [exact Ht|]. split; [reflexivity|]. split; [reflexivity|].
  split; [discriminate|].
  intros Hpn.
  pose proof (mapGamertagToPlatform_uno_digits handle steamSupport Hpn). congruence.
Qed.

Lemma acti_and_uno_share_the_wire_platform_witness :
  (purely_numeric (lit "1234567") = true ∨ isNaN_Number (lit "1234567") = false)
  ∧ ∃ encoded : jsstring,
      mapGamertagToPlatform (lit "1234567") platforms.Activision false
      = Normal (mkIdentity encoded platforms.Uno (lit "gamer"))
      ∧ mapGamertagToPlatform (lit "1234567") platforms.Uno false
        = Normal (mkIdentity encoded platforms.Uno (lit "id"))
      ∧ handleLookupType platforms.Activision = lit "gamer"
      ∧ handleLookupType platforms.Uno = lit "id"
      ∧ lit "gamer" ≠ lit "id"
      ∧ (purely_numeric (lit "1234567") = true → encoded = lit "1234567").
Proof.
  split; [left; reflexivity|].
  apply (acti_and_uno_share_the_wire_platform (lit "1234567") false). left. reflexivity.
Defined.

(** ** The sentinel platforms *)

(** Split a template at its platform segment: what stands before it is
    given, what stands after it is found by unification. *)
Ltac split_at pre :=
  exists pre; eexists;
  unfold Endpoint.fullData, Endpoint.combatHistory, Endpoint.combatHistoryWithDate,
    Endpoint.breakdown, Endpoint.breakdownWithDate, Endpoint.matchInfo,
    Endpoint.seasonLoot, Endpoint.mapList, Endpoint.battlePassLoot,
    Endpoint.friendFeed, Endpoint.codPoints, Endpoint.connectedAccounts,
    Endpoint.settings, Endpoint.friendAction, Endpoint.search;
  cbn [ep_game ep_gamertag ep_platform ep_mode ep_lookupType];
  rewrite <- ?app_assoc; reflexivity.

Section Templates.
Variables game gamertag platform mode lookupType : jsstring.
Let this := new_Endpoints game gamertag platform mode lookupType.

Lemma fullData_embeds : embeds_platform_segment platform (Endpoint.fullData this).
Proof. split_at (lit "/stats/cod/v1/title/" ++ game ++ lit "/platform"). Qed.

Lemma combatHistory_embeds :
  embeds_platform_segment platform (Endpoint.combatHistory this).
Proof. split_at (lit "/crm/cod/v2/title/" ++ game ++ lit "/platform"). Qed.

Lemma combatHistoryWithDate_embeds (startTime endTime : Z) :
  embeds_platform_segment platform (Endpoint.combatHistoryWithDate this startTime endTime).
Proof. split_at (lit "/crm/cod/v2/title/" ++ game ++ lit "/platform"). Qed.

Lemma breakdown_embeds : embeds_platform_segment platform (Endpoint.breakdown this).
Proof. split_at (lit "/crm/cod/v2/title/" ++ game ++ lit "/platform"). Qed.

Lemma breakdownWithDate_embeds (startTime endTime : Z) :
  embeds_platform_segment platform (Endpoint.breakdownWithDate this startTime endTime).
Proof. split_at (lit "/crm/cod/v2/title/" ++ game ++ lit "/platform"). Qed.

Lemma matchInfo_embeds (matchId : jsstring) :
  embeds_platform_segment platform (Endpoint.matchInfo this matchId).
Proof. split_at (lit "/crm/cod/v2/title/" ++ game ++ lit "/platform"). Qed.

Lemma seasonLoot_embeds : embeds_platform_segment platform (Endpoint.seasonLoot this).
Proof. split_at (lit "/loot/title/" ++ game ++ lit "/platform"). Qed.

Lemma mapList_embeds : embeds_platform_segment platform (Endpoint.mapList this).
Proof. split_at (lit "/ce/v1/title/" ++ game ++ lit "/platform"). Qed.

Lemma battlePassLoot_embeds (season : Z) :
  embeds_platform_segment platform (Endpoint.battlePassLoot this season).
Proof. split_at (lit "/loot/title/" ++ game ++ lit "/platform"). Qed.

Lemma friendFeed_embeds : embeds_platform_segment platform (Endpoint.friendFeed this).
Proof. split_at (lit "/userfeed/v1/friendFeed/platform"). Qed.

Lemma codPoints_embeds : embeds_platform_segment platform (Endpoint.codPoints this).
Proof. split_at (lit "/inventory/v1/title/mw/platform"). Qed.

Lemma connectedAccounts_embeds :
  embeds_platform_segment platform (Endpoint.connectedAccounts this).
Proof. split_at (lit "/crm/cod/v2/accounts/platform"). Qed.

Lemma settings_embeds : embeds_platform_segment platform (Endpoint.settings this).
Proof. split_at (lit "/preferences/v1/platform"). Qed.

Lemma friendAction_embeds (action : jsstring) :
  embeds_platform_segment platform (Endpoint.friendAction this action).
Proof. split_at (lit "/codfriends/v1/" ++ action). Qed.

Lemma search_embeds : embeds_platform_segment platform (Endpoint.search this).
Proof. split_at (lit "/crm/cod/v2/platform"). Qed.

End Templates.

Create HintDb templates discriminated.
#[local] Hint Resolve fullData_embeds combatHistory_embeds combatHistoryWithDate_embeds
  breakdown_embeds breakdownWithDate_embeds matchInfo_embeds seasonLoot_embeds
  mapList_embeds battlePassLoot_embeds friendFeed_embeds codPoints_embeds
  connectedAccounts_embeds settings_embeds friendAction_embeds search_embeds : templates.





Example MW_fullData_on_all :
  MW.fullData always_ok (lit "gamer#1234") platforms.All
  = sendRequest always_ok
      (lit "/stats/cod/v1/title/mw/platform/all/gamer/gamer#1234/profile/type/mp").
Proof. reflexivity. Qed.

Example MW_fullData_on_acti_encodes :
  wire (snd (MW.fullData always_ok (lit "gamer#1234") platforms.Activision
               (snd (login (lit "TOK") initialWorld))))
  = [legacyGet (globals (snd (login (lit "TOK") initialWorld)))
       (lit "/stats/cod/v1/title/mw/platform/uno/gamer/gamer%231234/profile/type/mp")].
Proof. vm_compute. reflexivity. Qed.

Example MW2_fullData_without_any_login :
  MW2.fullData always_ok (lit "1234567") initialWorld
  = (Throw (Error (lit "Not Logged In!")), initialWorld).
Proof. reflexivity. Qed.

(** * Further properties *)

(** ** Outcomes of resolution *)

(** What a returned identity says about the arguments. *)
Lemma mapGamertagToPlatform_Normal (g p : jsstring) (steamSupport : bool) (id : Identity) :
  mapGamertagToPlatform g p steamSupport = Normal id →
  In p platforms.values
  ∧ (p = platforms.Uno → g = [] ∨ isNaN_Number g = false)
  ∧ (p = platforms.Steam → steamSupport = true)
  ∧ lookupType id = handleLookupType p
  ∧ _platform id
    = (if eqb p platforms.Uno || eqb p platforms.Activision then platforms.Uno else p)
  ∧ (if eqb p platforms.Battlenet || eqb p platforms.Activision || eqb p platforms.Uno
     then encodeURIComponent g = Normal (gamertag id)
     else gamertag id = g).
Proof.
  unfold mapGamertagToPlatform, checkForValidPlatform.
  destruct (includes platforms.values p) eqn:Hin; [|done].
  apply includes_values_spec in Hin.
  cbn [negb].
  destruct (truthy g && isNaN_Number g && eqb p platforms.Uno) eqn:Hnum; [done|].
  unfold mbind, completion_bind at 1.
  destruct (negb steamSupport && eqb p platforms.Steam) eqn:Hsteam; [done|].
  assert (Huno : p = platforms.Uno → g = [] ∨ isNaN_Number g = false).
  { intros ->. rewrite eqb_refl, andb_true_r in Hnum.
    destruct g; [by left|]. right. exact Hnum. }
  assert (Hst : p = platforms.Steam → steamSupport = true).
  { intros ->. rewrite eqb_refl, andb_true_r in Hsteam. by destruct steamSupport. }
  destruct (eqb p platforms.Battlenet || eqb p platforms.Activision
            || eqb p platforms.Uno) eqn:Henc.
  - destruct g as [|c r].
    + cbn [truthy andb]. unfold completion_bind. intros [= <-]. done.
    + cbn [truthy andb length Nat.ltb Nat.leb]. unfold cleanClientName.
      destruct (encodeURIComponent (c :: r)) as [t|e] eqn:Ht; [|done].
      unfold completion_bind. intros [= <-]. done.
  - unfold completion_bind. intros [= <-]. done.
Qed.

Lemma withIdentity_throw
    (JSON : Type) (game mode g p : jsstring) (steamSupport : bool)
    (dispatch : Endpoints → M JSON) (e : exn) (w : World) :
  mapGamertagToPlatform g p steamSupport = Throw e →
  withIdentity game mode g p steamSupport dispatch w = (Throw e, w).
Proof. intros H. unfold withIdentity. unfold_M. by rewrite H. Qed.

(** X1. A platform outside the enumeration is what [checkForValidPlatform]
    answers with the not-valid error, naming the platform, and nothing
    else is: whatever the handle.  Resolution throws the same error, and so
    does every exported method that takes a platform, before the login check
    and leaving the world as it was. *)
Theorem unknown_platform_is_rejected_first
    (JSON : Type) (upstream : list Request → Request → option (Response JSON))
    (p g : jsstring) (steamSupport : bool) :
  (checkForValidPlatform p g = Throw (Error (invalidPlatformMessage p))
   ↔ ¬ In p platforms.values)
  ∧ (¬ In p platforms.values →
     mapGamertagToPlatform g p steamSupport = Throw (Error (invalidPlatformMessage p))
     ∧ ∀ (c : platformCall) (w : World),
         invoke upstream c p w = (Throw (Error (invalidPlatformMessage p)), w)).
Proof.
  assert (Hout : ∀ h, ¬ In p platforms.values →
            checkForValidPlatform p h = Throw (Error (invalidPlatformMessage p))).
  { intros h Hp. unfold checkForValidPlatform.
    destruct (includes platforms.values p) eqn:Hin; [|done].
    by apply includes_values_spec in Hin. }
  assert (Hres : ∀ h ss, ¬ In p platforms.values →
            mapGamertagToPlatform h p ss = Throw (Error (invalidPlatformMessage p))).
  { intros h ss Hp. unfold mapGamertagToPlatform. by rewrite (Hout h Hp). }
  split.
  - split; [|apply Hout].
    intros Hc Hin. unfold checkForValidPlatform in Hc.
    apply includes_values_spec in Hin. rewrite Hin in Hc. cbn [negb] in Hc.
    destruct (truthy g && isNaN_Number g && eqb p platforms.Uno); [|done].
    injection Hc as Hc. vm_compute in Hc. discriminate.
  - intros Hp. split; [by apply Hres|].
    intros c w. destruct c; apply withIdentity_throw, Hres, Hp.
Qed.

Lemma unknown_platform_is_rejected_first_witness :
  ¬ In (lit "playstation") platforms.values
  ∧ mapGamertagToPlatform (lit "gamer") (lit "playstation") false
    = Throw (Error (invalidPlatformMessage (lit "playstation")))
  ∧ ∀ (c : platformCall) (w : World),
      invoke always_ok c (lit "playstation") w
      = (Throw (Error (invalidPlatformMessage (lit "playstation"))), w).
Proof.
  assert (Hp : ¬ In (lit "playstation") platforms.values).
  { vm_compute. intros H. repeat (destruct H as [H|H]; [discriminate|]). exact H. }
  split; [exact Hp|].
  exact (proj2 (unknown_platform_is_rejected_first unit always_ok
                  (lit "playstation") (lit "gamer") false) Hp).
Defined.

(** X2. A returned identity never names the platform [acti]: [acti] and
    [uno] both come back as [uno] and every other platform as itself.  The
    lookup kind is [id] exactly when the platform asked for was [uno], and
    [gamer] otherwise. *)
Theorem resolved_identity_names_the_wire_platform
    (g p : jsstring) (steamSupport : bool) (id : Identity) :
  mapGamertagToPlatform g p steamSupport = Normal id →
  In (_platform id) platforms.values
  ∧ _platform id ≠ platforms.Activision
  ∧ (_platform id = platforms.Uno ↔ p = platforms.Uno ∨ p = platforms.Activision)
  ∧ (p ≠ platforms.Activision → _platform id = p)
  ∧ (lookupType id = lit "id" ↔ p = platforms.Uno)
  ∧ (lookupType id = lit "gamer" ↔ p ≠ platforms.Uno).
Proof.
  intros H. apply mapGamertagToPlatform_Normal in H
    as (Hin & _ & _ & Hl & Hp & _).
  unfold handleLookupType in Hl. rewrite Hl, Hp. clear Hl Hp.
  destruct (eqb p platforms.Uno) eqn:Hu; [apply eqb_true in Hu | apply eqb_false in Hu].
  - subst p. cbn [orb]. repeat split; try done; auto.
  - cbn [orb].
    destruct (eqb p platforms.Activision) eqn:Ha;
      [apply eqb_true in Ha | apply eqb_false in Ha].
    + subst p. repeat split; try done; auto; try (vm_compute; tauto).
    + repeat split; try done; auto; intros; try tauto.
Qed.

Lemma resolved_identity_names_the_wire_platform_witness :
  mapGamertagToPlatform (lit "gamer#1234") platforms.Activision false
  = Normal (mkIdentity (lit "gamer%231234") platforms.Uno (lit "gamer"))
  ∧ platforms.Uno ≠ platforms.Activision
  ∧ (lit "gamer" = lit "id" ↔ platforms.Activision = platforms.Uno).
Proof.
  assert (H : mapGamertagToPlatform (lit "gamer#1234") platforms.Activision false
              = Normal (mkIdentity (lit "gamer%231234") platforms.Uno (lit "gamer")))
    by reflexivity.
  split; [exact H|].
  destruct (resolved_identity_names_the_wire_platform _ _ _ _ H)
    as (_ & Hne & _ & _ & Hid & _).
  split; [exact Hne | exact Hid].
Defined.

(** ** Escaping of handles *)

(** Induction following the recursion of [encodeURIComponent], which steps
    over one code unit or over a surrogate pair. *)
Lemma jsstring_pair_ind (P : jsstring → Prop) :
  P [] →
  (∀ c r, P r → (∀ k r', r = k :: r' → P r') → P (c :: r)) →
  ∀ s, P s.
Proof.
  intros Hnil Hcons s.
  enough (H : P s ∧ ∀ k r', s = k :: r' → P r') by apply H.
  induction s as [|c r [IH1 IH2]].
  - split; [exact Hnil | discriminate].
  - split; [by apply Hcons | by intros k r' [= _ <-]].
Qed.

(** Ranges of code units, with the unescaped set opened first. *)
Ltac code_units := unfold isUriSafe, isUriUnescaped in *; chars.

Lemma isUriUnescaped_not_surrogate (c : N) :
  isUriUnescaped c = true → isLeadSurrogate c = false ∧ isTrailSurrogate c = false.
Proof. intros H. split; code_units. Qed.

(** [encodeURIComponent] returns on the well-formed strings and throws
    [URIError] on the others. *)
Lemma encodeURIComponent_outcome (s : jsstring) :
  (isWellFormed s = true → ∃ t, encodeURIComponent s = Normal t)
  ∧ (isWellFormed s = false → encodeURIComponent s = Throw URIError).
Proof.
  induction s as [|c r [IHt IHf] IH2] using jsstring_pair_ind;
    [split; [by eexists | done]|].
  cbn [encodeURIComponent isWellFormed]. unfold mbind, completion_bind.
  destruct (isUriUnescaped c) eqn:Hc.
  { destruct (isUriUnescaped_not_surrogate c Hc) as [-> ->]. cbn [negb andb].
    split.
    - intros Hw. destruct (IHt Hw) as [t ->]. by eexists.
    - intros Hw. by rewrite (IHf Hw). }
  destruct (isTrailSurrogate c) eqn:Htr.
  { assert (isLeadSurrogate c = false) as -> by chars. by split. }
  destruct (isLeadSurrogate c) eqn:Hld.
  - destruct r as [|k r']; [by split|].
    destruct (IH2 k r' eq_refl) as [IHt' IHf'].
    destruct (isTrailSurrogate k); [|by split]. cbn [andb]. split.
    + intros Hw. destruct (IHt' Hw) as [t ->]. by eexists.
    + intros Hw. by rewrite (IHf' Hw).
  - cbn [negb andb]. split.
    + intros Hw. destruct (IHt Hw) as [t ->]. by eexists.
    + intros Hw. by rewrite (IHf Hw).
Qed.

(** Resolution on [battle] and [acti] is the escaping of the handle. *)
Lemma mapGamertagToPlatform_escaping (g p : jsstring) (steamSupport : bool) :
  p = platforms.Battlenet ∨ p = platforms.Activision →
  mapGamertagToPlatform g p steamSupport
  = match encodeURIComponent g with
    | Normal t =>
        Normal (mkIdentity t
                  (if eqb p platforms.Activision then platforms.Uno else p) (lit "gamer"))
    | Throw e => Throw e
    end.
Proof.
  intros Hp. unfold mapGamertagToPlatform.
  rewrite checkForValidPlatform_not_uno;
    [| destruct Hp as [-> | ->]; vm_compute; tauto | by destruct Hp as [-> | ->]].
  unfold mbind, completion_bind at 1.
  replace (negb steamSupport && eqb p platforms.Steam) with false
    by (destruct Hp as [-> | ->]; by destruct steamSupport).
  replace (eqb p platforms.Battlenet || eqb p platforms.Activision
           || eqb p platforms.Uno) with true by (by destruct Hp as [-> | ->]).
  replace (handleLookupType p) with (lit "gamer") by (by destruct Hp as [-> | ->]).
  replace (eqb p platforms.Uno || eqb p platforms.Activision)
    with (eqb p platforms.Activision) by (by destruct Hp as [-> | ->]).
  destruct g as [|c r]; [reflexivity|].
  cbn [truthy andb length Nat.ltb Nat.leb]. unfold cleanClientName, completion_bind.
  by destruct (encodeURIComponent (c :: r)).
Qed.

(** X3. On [battle] and on [acti], resolution throws [URIError] exactly for
    the handles that are not well-formed UTF-16 (a surrogate standing
    alone), and returns for every other handle.  On [uno] it never throws
    [URIError]: such a handle is refused as not numerical first. *)
Theorem lone_surrogate_is_a_URIError (g p : jsstring) (steamSupport : bool) :
  (p = platforms.Battlenet ∨ p = platforms.Activision →
   (mapGamertagToPlatform g p steamSupport = Throw URIError ↔ isWellFormed g = false)
   ∧ (isWellFormed g = true →
      ∃ id, mapGamertagToPlatform g p steamSupport = Normal id))
  ∧ mapGamertagToPlatform g platforms.Uno steamSupport ≠ Throw URIError.
Proof.
  destruct (encodeURIComponent_outcome g) as [Ht Hf].
  split.
  - intros Hp. rewrite (mapGamertagToPlatform_escaping g p steamSupport Hp).
    destruct (isWellFormed g) eqn:Hw.
    + destruct (Ht eq_refl) as [t ->]. split; [split; done | by eexists].
    + rewrite (Hf eq_refl). split; [split; done | done].
  - destruct g as [|c r] eqn:Hg.
    + destruct (mapGamertagToPlatform_uno_numeric [] steamSupport (or_introl eq_refl))
        as (t & _ & ->). done.
    + destruct (isNaN_Number (c :: r)) eqn:Hn.
      * unfold mapGamertagToPlatform, checkForValidPlatform.
        replace (includes platforms.values platforms.Uno) with true by reflexivity.
        rewrite Hn. cbn [negb truthy andb]. rewrite eqb_refl. done.
      * destruct (mapGamertagToPlatform_uno_numeric (c :: r) steamSupport (or_intror Hn))
          as (t & _ & ->). done.
Qed.

Lemma lone_surrogate_is_a_URIError_witness :
  (platforms.Battlenet = platforms.Battlenet ∨ platforms.Battlenet = platforms.Activision)
  ∧ isWellFormed (lit "gamer" ++ [0xD83D]) = false
  ∧ mapGamertagToPlatform (lit "gamer" ++ [0xD83D]) platforms.Battlenet false
    = Throw URIError.
Proof.
  assert (Hp : platforms.Battlenet = platforms.Battlenet
               ∨ platforms.Battlenet = platforms.Activision) by (by left).
  assert (Hw : isWellFormed (lit "gamer" ++ [0xD83D]) = false) by reflexivity.
  split; [exact Hp|]. split; [exact Hw|].
  apply (proj1 (proj1 (lone_surrogate_is_a_URIError (lit "gamer" ++ [0xD83D])
                         platforms.Battlenet false) Hp)).
  exact Hw.
Defined.

Lemma lor_lt_256 (a b : N) : a < 256 → b < 256 → N.lor a b < 256.
Proof.
  intros Ha Hb.
  destruct (N.eq_dec (N.lor a b) 0) as [-> | Hz]; [lia|].
  apply (N.log2_lt_pow2 _ 8); [lia|].
  rewrite N.log2_lor. apply N.max_lub_lt.
  - destruct (N.eq_dec a 0) as [-> | ?]; [reflexivity | apply N.log2_lt_pow2; lia].
  - destruct (N.eq_dec b 0) as [-> | ?]; [reflexivity | apply N.log2_lt_pow2; lia].
Qed.

Lemma shiftr_lt (v n q : N) : v < 2 ^ n * q → N.shiftr v n < q.
Proof. intros H. rewrite N.shiftr_div_pow2. by apply N.Div0.div_lt_upper_bound. Qed.

Lemma land_63_lt (v : N) : N.land v 0x3F < 64.
Proof. change 0x3F with (N.ones 6). rewrite N.land_ones. by apply N.mod_lt. Qed.

Lemma hexDigitUpper_unescaped (d : N) : d < 16 → isUriUnescaped (hexDigitUpper d) = true.
Proof. intros Hd. unfold hexDigitUpper. destruct (d <? 10) eqn:H; code_units. Qed.

Lemma percentOctet_safe (b : N) : b < 256 → forallb isUriSafe (percentOctet b) = true.
Proof.
  intros Hb. unfold percentOctet, isUriSafe. cbn [forallb].
  rewrite !hexDigitUpper_unescaped.
  - reflexivity.
  - change 0xF with (N.ones 4). rewrite N.land_ones. by apply N.mod_lt.
  - apply shiftr_lt. simpl. lia.
Qed.

Lemma utf8_octets (v : N) : v < 0x110000 → Forall (λ b, b < 256) (utf8 v).
Proof.
  intros Hv. unfold utf8.
  pose proof (land_63_lt v). pose proof (land_63_lt (N.shiftr v 6)).
  pose proof (land_63_lt (N.shiftr v 12)).
  destruct (v <? 0x80) eqn:Hlt1; [|destruct (v <? 0x800) eqn:Hlt2;
    [|destruct (v <? 0x10000) eqn:Hlt3]];
    rewrite ?N.ltb_lt, ?N.ltb_ge in *;
    repeat first [apply Forall_nil | apply List.Forall_cons];
    try (apply lor_lt_256); try lia;
    apply shiftr_lt; simpl; lia.
Qed.

Lemma percentCodePoint_safe (v : N) :
  v < 0x110000 → forallb isUriSafe (percentCodePoint v) = true.
Proof.
  intros Hv. unfold percentCodePoint.
  pose proof (utf8_octets v Hv) as Ho.
  induction Ho as [|b l Hb Hl IH]; [reflexivity|].
  cbn [map concat]. rewrite forallb_app, percentOctet_safe by done. exact IH.
Qed.

(** What [encodeURIComponent] returns is made of unescaped characters and
    percent signs. *)
Lemma encodeURIComponent_safe (s t : jsstring) :
  wf_jsstring s → encodeURIComponent s = Normal t → forallb isUriSafe t = true.
Proof.
  revert t. induction s as [|c r IH1 IH2] using jsstring_pair_ind; intros t Hwf.
  { by intros [= <-]. }
  apply Forall_cons in Hwf as [Hc Hwf].
  cbn [encodeURIComponent]. unfold mbind, completion_bind.
  destruct (isUriUnescaped c) eqn:Hu.
  { destruct (encodeURIComponent r) as [t'|] eqn:Hr; [|done]. intros [= <-].
    cbn [forallb]. unfold isUriSafe at 1. rewrite Hu. by apply IH1. }
  destruct (isTrailSurrogate c) eqn:Htr; [done|].
  destruct (isLeadSurrogate c) eqn:Hld.
  - destruct r as [|k r']; [done|].
    destruct (isTrailSurrogate k) eqn:Hk; [|done].
    destruct (encodeURIComponent r') as [t'|] eqn:Hr; [|done]. intros [= <-].
    rewrite forallb_app. apply andb_true_iff. split.
    + apply percentCodePoint_safe. chars.
    + apply (IH2 k r' eq_refl); [|done]. by apply Forall_cons in Hwf as [_ ?].
  - destruct (encodeURIComponent r) as [t'|] eqn:Hr; [|done]. intros [= <-].
    rewrite forallb_app. apply andb_true_iff. split.
    + apply percentCodePoint_safe. lia.
    + by apply IH1.
Qed.

(** A source literal is a string proper. *)
Lemma wf_lit (s : string) : wf_jsstring (lit s).
Proof.
  unfold wf_jsstring, lit.
  induction (list_ascii_of_string s) as [|a l IH]; constructor; [|exact IH].
  pose proof (N_ascii_bounded a). lia.
Qed.

(** X4. On the platforms whose handles are escaped ([battle], [acti],
    [uno]), the handle of a returned identity is made of unescaped characters
    and percent signs only: it holds no slash, question mark, hash, ampersand,
    equals sign or space, whatever the handle given held. *)
Theorem escaped_handle_is_url_safe
    (g p : jsstring) (steamSupport : bool) (id : Identity) :
  wf_jsstring g →
  p = platforms.Battlenet ∨ p = platforms.Activision ∨ p = platforms.Uno →
  mapGamertagToPlatform g p steamSupport = Normal id →
  forallb isUriSafe (gamertag id) = true
  ∧ ∀ c : N, In c [0x2F; 0x3F; 0x23; 0x26; 0x3D; 0x20] → ¬ In c (gamertag id).
Proof.
  intros Hwf Hp H. apply mapGamertagToPlatform_Normal in H as (_ & _ & _ & _ & _ & Henc).
  replace (eqb p platforms.Battlenet || eqb p platforms.Activision
           || eqb p platforms.Uno) with true in Henc
    by (by destruct Hp as [-> | [-> | ->]]).
  pose proof (encodeURIComponent_safe g (gamertag id) Hwf Henc) as Hsafe.
  split; [exact Hsafe|].
  intros c Hc Hin. rewrite forallb_forall in Hsafe. specialize (Hsafe c Hin).
  cbn [In] in Hc.
  destruct Hc as [<- | [<- | [<- | [<- | [<- | [<- | []]]]]]]; discriminate.
Qed.

Lemma escaped_handle_is_url_safe_witness :
  wf_jsstring (lit "a/b c#1")
  ∧ mapGamertagToPlatform (lit "a/b c#1") platforms.Battlenet false
    = Normal (mkIdentity (lit "a%2Fb%20c%231") platforms.Battlenet (lit "gamer"))
  ∧ forallb isUriSafe (lit "a%2Fb%20c%231") = true
  ∧ ∀ c : N, In c [0x2F; 0x3F; 0x23; 0x26; 0x3D; 0x20] → ¬ In c (lit "a%2Fb%20c%231").
Proof.
  assert (Hwf : wf_jsstring (lit "a/b c#1")).
  { apply wf_lit. }
  assert (H : mapGamertagToPlatform (lit "a/b c#1") platforms.Battlenet false
              = Normal (mkIdentity (lit "a%2Fb%20c%231") platforms.Battlenet (lit "gamer")))
    by reflexivity.
  split; [exact Hwf|]. split; [exact H|].
  exact (escaped_handle_is_url_safe _ _ _ _ Hwf (or_introl eq_refl) H).
Defined.

(** ** The telescope titles *)

Section TelescopeTitles.
Context {JSON : Type}.
Variable upstream : list Request → Request → option (Response JSON).

Lemma withUnoId_throw (game unoId : jsstring) (dispatch : TelescopeEndpoints → M JSON)
    (e : exn) (w : World) :
  mapGamertagToPlatform unoId platforms.Uno true = Throw e →
  withUnoId game unoId dispatch w = (Throw e, w).
Proof. intros H. unfold withUnoId. unfold_M. by rewrite H. Qed.

Lemma withUnoId_Normal (game unoId encoded : jsstring)
    (dispatch : TelescopeEndpoints → M JSON) :
  mapGamertagToPlatform unoId platforms.Uno true
  = Normal (mkIdentity encoded platforms.Uno (lit "id")) →
  withUnoId game unoId dispatch
  = dispatch (new_TelescopeEndpoints game encoded telescopeModes.Multiplayer).
Proof. intros H. unfold withUnoId. unfold_M. by rewrite H. Qed.

(** X5. The methods of the telescope titles check the id before the login
    flag.  An id that is not empty and that [Number] turns into NaN is refused
    with the numerical-ID error, logged in or not, and nothing is sent; every
    other id, the empty one included, is escaped and handed to the telescope
    dispatcher in the query of the lifetime, matches and match paths of the
    title.  The match id goes into its path as given. *)
Theorem telescope_titles_check_the_id_first
    (game unoId matchId : jsstring) (w : World) :
  (unoId ≠ [] ∧ isNaN_Number unoId = true →
   telescope_fullData upstream game unoId w
   = (Throw (Error generics.UNO_NO_NUMERICAL_ID), w)
   ∧ telescope_matches upstream game unoId w
     = (Throw (Error generics.UNO_NO_NUMERICAL_ID), w)
   ∧ telescope_matchInfo upstream game unoId matchId w
     = (Throw (Error generics.UNO_NO_NUMERICAL_ID), w))
  ∧ (unoId = [] ∨ isNaN_Number unoId = false →
     ∃ encoded : jsstring,
       encodeURIComponent unoId = Normal encoded
       ∧ telescope_fullData upstream game unoId
         = sendTelescopeRequest upstream
             (lit "/cr/v1/title/" ++ game ++ lit "/lifetime?language=english&unoId=" ++
              encoded)
       ∧ telescope_matches upstream game unoId
         = sendTelescopeRequest upstream
             (lit "/cr/v1/title/" ++ game ++ lit "/matches?language=english&unoId=" ++
              encoded)
       ∧ telescope_matchInfo upstream game unoId matchId
         = sendTelescopeRequest upstream
             (lit "/cr/v1/title/" ++ game ++ lit "/match/" ++ matchId ++
              lit "?language=english&unoId=" ++ encoded)).
Proof.
  split.
  - intros [Hne Hnan].
    assert (H : mapGamertagToPlatform unoId platforms.Uno true
                = Throw (Error generics.UNO_NO_NUMERICAL_ID)).
    { unfold mapGamertagToPlatform, checkForValidPlatform.
      replace (includes platforms.values platforms.Uno) with true by reflexivity.
      rewrite Hnan. destruct unoId; [done | reflexivity]. }
    unfold telescope_fullData, telescope_matches, telescope_matchInfo.
    by rewrite !(withUnoId_throw _ _ _ _ _ H).
  - intros Hok.
    destruct (mapGamertagToPlatform_uno_numeric unoId true Hok) as (t & Henc & Ht).
    exists t. split; [exact Henc|].
    unfold telescope_fullData, telescope_matches, telescope_matchInfo.
    by rewrite !(withUnoId_Normal _ _ _ _ Ht).
Qed.

End TelescopeTitles.

Lemma telescope_titles_check_the_id_first_witness :
  (lit "gamer#1234" ≠ [] ∧ isNaN_Number (lit "gamer#1234") = true)
  ∧ MW2.fullData always_ok (lit "gamer#1234") initialWorld
    = (Throw (Error generics.UNO_NO_NUMERICAL_ID), initialWorld)
  ∧ (lit "1234567" = [] ∨ isNaN_Number (lit "1234567") = false)
  ∧ ∃ encoded : jsstring,
      encodeURIComponent (lit "1234567") = Normal encoded
      ∧ MW3.matchInfo always_ok (lit "1234567") (lit "42")
        = sendTelescopeRequest always_ok
            (lit "/cr/v1/title/" ++ telescopeGames.ModernWarfare3 ++ lit "/match/" ++
             lit "42" ++ lit "?language=english&unoId=" ++ encoded).
Proof.
  assert (H1 : lit "gamer#1234" ≠ [] ∧ isNaN_Number (lit "gamer#1234") = true).
  { split; [discriminate | reflexivity]. }
  assert (H2 : lit "1234567" = [] ∨ isNaN_Number (lit "1234567") = false).
  { right. reflexivity. }
  split; [exact H1|]. split; [|split; [exact H2|]].
  - exact (proj1 (proj1 (telescope_titles_check_the_id_first always_ok
                           telescopeGames.ModernWarfare2 (lit "gamer#1234") []
                           initialWorld) H1)).
  - destruct (proj2 (telescope_titles_check_the_id_first always_ok
                       telescopeGames.ModernWarfare3 (lit "1234567") (lit "42")
                       initialWorld) H2) as (t & Henc & _ & _ & Hm).
    exists t. split; [exact Henc | exact Hm].
Defined.

(** ** Telescope login and the dispatchers, step by step *)

Section SessionSteps.
Context {JSON : Type}.
Variable umbrella_accessToken : JSON → option jsstring.
Variable error_msg : JSON → option jsstring.
Variable upstream : list Request → Request → option (Response JSON).

Local Abbreviation telescopeLogin' := (telescopeLogin umbrella_accessToken error_msg upstream).
Local Abbreviation reachable' := (reachable umbrella_accessToken error_msg upstream).

(** The call a dispatcher puts on the wire when the module is logged in. *)
Lemma sendRequest_wire (url : jsstring) (w : World) :
  loggedIn (globals w) = true →
  wire (snd (sendRequest upstream url w)) = wire w ++ [legacyGet (globals w) url].
Proof.
  intros Hin. unfold sendRequest, legacyGet. unfold_M. rewrite Hin. simpl.
  unfold request, json. unfold_M. simpl.
  repeat (case_match; simplify_eq/=); done.
Qed.

Lemma sendPostRequest_wire (url data : jsstring) (w : World) :
  loggedIn (globals w) = true →
  wire (snd (sendPostRequest upstream url data w))
  = wire w ++ [legacyPost (globals w) url data].
Proof.
  intros Hin. unfold sendPostRequest, legacyPost. unfold_M. rewrite Hin. simpl.
  unfold request, json. unfold_M. simpl.
  repeat (case_match; simplify_eq/=); done.
Qed.

Lemma sendTelescopeRequest_wire (url : jsstring) (w : World) :
  loggedIn (globals w) = true →
  wire (snd (sendTelescopeRequest upstream url w))
  = wire w ++ [telescopeGet (globals w) url].
Proof.
  intros Hin. unfold sendTelescopeRequest, telescopeGet. unfold_M. rewrite Hin. simpl.
  unfold request, json. unfold_M. simpl.
  repeat (case_match; simplify_eq/=); done.
Qed.

(** The one call of a telescope login with both credentials given. *)
Lemma telescopeLogin_wire (username password : jsstring) (w : World) :
  username ≠ [] → password ≠ [] →
  wire (snd (telescopeLogin' username password w))
  = wire w ++ [telescopeLoginCall (globals w) username password].
Proof.
  intros Hu Hp. destruct username as [|u us]; [done|]. destruct password as [|p ps]; [done|].
  unfold telescopeLogin, telescopeLoginCall. cbn [truthy negb orb].
  unfold_M. unfold request, json. unfold_M. cbn [globals wire].
  repeat (case_match; simplify_eq/=); done.
Qed.

(** X6. A telescope login with both credentials given puts exactly one call
    on the wire, whatever comes back: the POST to the login endpoint with the
    credentials in its body.  It leaves the legacy header objects, the stored
    token, the telescope header object and the debug flag as they were. *)
Theorem telescopeLogin_is_one_call (username password : jsstring) (w : World) :
  username ≠ [] → password ≠ [] →
  wire (snd (telescopeLogin' username password w))
  = wire w ++ [telescopeLoginCall (globals w) username password]
  ∧ legacyPart (globals (snd (telescopeLogin' username password w)))
    = legacyPart (globals w)
  ∧ baseTelescopeHeaders (globals (snd (telescopeLogin' username password w)))
    = baseTelescopeHeaders (globals w)
  ∧ debugMode (globals (snd (telescopeLogin' username password w)))
    = debugMode (globals w).
Proof.
  intros Hu Hp. destruct username as [|u us]; [done|]. destruct password as [|p ps]; [done|].
  unfold telescopeLogin, telescopeLoginCall. cbn [truthy negb orb].
  unfold_M. unfold request, json. unfold_M. cbn [globals wire].
  repeat (case_match; simplify_eq/=); done.
Qed.

(** X7. The bearer token changes only through a login that succeeds: if a
    telescope login leaves another token than it found, the call was answered
    with status 200 and a JSON body whose access token is the new one, the
    login returned true and the module is logged in.  A refused or failed
    login keeps the token it found. *)
Theorem bearer_token_changes_only_on_success (username password : jsstring) (w : World) :
  telescopeUnoToken (globals (snd (telescopeLogin' username password w)))
  ≠ telescopeUnoToken (globals w) →
  ∃ (resp : Response JSON) (response : JSON),
    upstream (wire w) (telescopeLoginCall (globals w) username password) = Some resp
    ∧ statusCode resp = 200%Z
    ∧ body_json resp = Some response
    ∧ umbrella_accessToken response
      = Some (telescopeUnoToken (globals (snd (telescopeLogin' username password w))))
    ∧ fst (telescopeLogin' username password w) = Normal true
    ∧ loggedIn (globals (snd (telescopeLogin' username password w))) = true.
Proof.
  unfold telescopeLogin, telescopeLoginCall.
  destruct (negb (truthy username) || negb (truthy password)); [done|].
  unfold_M. unfold request, json. unfold_M. cbn [globals wire].
  destruct (upstream _ _) as [resp|] eqn:Hup; [|done]. cbn [fst snd].
  destruct (statusCode resp =? 200)%Z eqn:Hs.
  - destruct (body_json resp) as [j|] eqn:Hb; [|done].
    destruct (umbrella_accessToken j) as [t|] eqn:Ht; [|done].
    cbn. intros _. exists resp, j. repeat split; try done. lia.
  - repeat (case_match; simplify_eq/=); done.
Qed.




(** X9. Each dispatcher tries once and keeps the session: a call of
    [sendRequest], [sendPostRequest] or [sendTelescopeRequest] puts at most
    one call on the wire and leaves the login flag, the bearer token, the
    legacy header objects, the stored token and the debug flag as they were,
    whatever the outside answers: an answer of 500 or an unreadable body does
    not log the module out. *)
Theorem dispatchers_try_once_and_keep_the_session (url data : jsstring) (w : World) :
  tried_once_kept_session w (snd (sendRequest upstream url w))
  ∧ tried_once_kept_session w (snd (sendPostRequest upstream url data w))
  ∧ tried_once_kept_session w (snd (sendTelescopeRequest upstream url w)).
Proof.
  unfold tried_once_kept_session, sendRequest, sendPostRequest, sendTelescopeRequest,
    legacyPart.
  unfold_M. unfold request, json. unfold_M.
  destruct (loggedIn (globals w)) eqn:Hin; cbn [negb globals wire fst snd].
  - split; [|split];
      repeat (case_match; simplify_eq/=);
      (split; [right; by eexists | by rewrite ?Hin]).
  - rewrite Hin. repeat split; by left.
Qed.

End SessionSteps.

Lemma telescopeLogin_is_one_call_witness :
  let quiet := (λ _ : unit, @None jsstring) in
  lit "user" ≠ [] ∧ lit "pass" ≠ []
  ∧ wire (snd (telescopeLogin quiet quiet (answering 503 None) (lit "user") (lit "pass")
                 initialWorld))
    = [telescopeLoginCall initialGlobals (lit "user") (lit "pass")].
Proof.
  intros quiet.
  assert (Hu : lit "user" ≠ []) by discriminate.
  assert (Hp : lit "pass" ≠ []) by discriminate.
  split; [exact Hu|]. split; [exact Hp|].
  exact (proj1 (telescopeLogin_is_one_call quiet quiet (answering 503 None)
                  (lit "user") (lit "pass") initialWorld Hu Hp)).
Defined.

Lemma bearer_token_changes_only_on_success_witness :
  let quiet := (λ _ : unit, @None jsstring) in
  telescopeUnoToken
    (globals (snd (telescopeLogin granting quiet always_ok (lit "user") (lit "pass")
                     initialWorld)))
  ≠ telescopeUnoToken (globals initialWorld)
  ∧ fst (telescopeLogin granting quiet always_ok (lit "user") (lit "pass") initialWorld)
    = Normal true.
Proof.
  intros quiet.
  assert (H : telescopeUnoToken
                (globals (snd (telescopeLogin granting quiet always_ok (lit "user")
                                 (lit "pass") initialWorld)))
              ≠ telescopeUnoToken (globals initialWorld)) by (vm_compute; discriminate).
  split; [exact H|].
  destruct (bearer_token_changes_only_on_success granting quiet always_ok
              (lit "user") (lit "pass") initialWorld H)
    as (resp & j & _ & _ & _ & _ & Hret & _).
  exact Hret.
Defined.


(** ** Legacy login, in closed form *)

Lemma login_nonblank (ssoToken : jsstring) (w : World) :
  trim ssoToken ≠ [] →
  login ssoToken w
  = (Normal true,
     {| globals :=
          {| baseSsoToken := ssoToken;
             debugMode := debugMode (globals w);
             baseHeaders := withCredentials ssoToken (baseHeaders (globals w));
             baseTelescopeHeaders := baseTelescopeHeaders (globals w);
             basePostHeaders := withCredentials ssoToken (basePostHeaders (globals w));
             loggedIn := true;
             telescopeUnoToken := telescopeUnoToken (globals w) |};
        wire := wire w |}).
Proof.
  intros Htrim. unfold login. rewrite (trim_nonempty _ Htrim).
  destruct (trim ssoToken); [done|]. reflexivity.
Qed.

Lemma login_blank (ssoToken : jsstring) (w : World) :
  trim ssoToken = [] → login ssoToken w = (Normal false, w).
Proof. intros H. unfold login. rewrite H. cbn. by rewrite orb_true_r. Qed.

Lemma lookup_withCredentials (ssoToken : jsstring) (h : Headers) (k : string) :
  withCredentials ssoToken h !! k
  = if bool_decide (k ∈ loginKeys) then Some (credential ssoToken k) else h !! k.
Proof.
  unfold withCredentials. case_bool_decide as Hk.
  - unfold loginKeys in Hk. rewrite !elem_of_cons in Hk.
    destruct Hk as [->|[->|[->|[->|[->|[->|Hk]]]]]];
      [by lookup_inserts..|by inversion Hk].
  - unfold loginKeys in Hk. rewrite !not_elem_of_cons in Hk.
    destruct Hk as (? & ? & ? & ? & ? & ? & _).
    by rewrite !lookup_insert_ne.
Qed.

(** X10. The last token wins: a login with a non-blank token after any
    other login, accepted or refused, leaves exactly the world that the same
    login would have left without it.  Nothing of an earlier token stays in
    the header objects. *)
Theorem login_last_token_wins (ssoToken earlier : jsstring) (w : World) :
  trim ssoToken ≠ [] →
  login ssoToken (snd (login earlier w)) = login ssoToken w.
Proof.
  intros Htrim.
  destruct (decide (trim earlier = [])) as [Hb | Hnb].
  { by rewrite (login_blank earlier w Hb). }
  rewrite (login_nonblank earlier w Hnb). cbn [snd].
  rewrite !(login_nonblank ssoToken _ Htrim). cbn [globals wire baseHeaders basePostHeaders
    debugMode baseTelescopeHeaders telescopeUnoToken].
  assert (Habsorb : ∀ h : Headers,
            withCredentials ssoToken (withCredentials earlier h)
            = withCredentials ssoToken h).
  { intros h. apply map_eq. intros k. rewrite !lookup_withCredentials.
    by case_bool_decide. }
  by rewrite !Habsorb.
Qed.

Lemma login_last_token_wins_witness :
  trim (lit "NEW") ≠ []
  ∧ login (lit "NEW") (snd (login (lit "OLD") initialWorld))
    = login (lit "NEW") initialWorld.
Proof.
  assert (H : trim (lit "NEW") ≠ []) by (vm_compute; discriminate).
  split; [exact H|].
  exact (login_last_token_wins (lit "NEW") (lit "OLD") initialWorld H).
Defined.

(** ** Invariants of the reachable worlds *)

Section Invariants.
Context {JSON : Type}.
Variable umbrella_accessToken : JSON → option jsstring.
Variable error_msg : JSON → option jsstring.
Variable upstream : list Request → Request → option (Response JSON).

Local Abbreviation telescopeLogin' := (telescopeLogin umbrella_accessToken error_msg upstream).
Local Abbreviation perform' := (perform umbrella_accessToken error_msg upstream).
Local Abbreviation reachable' := (reachable umbrella_accessToken error_msg upstream).

Lemma action_login_or_not (a : action) :
  (∃ ssoToken, a = Alogin ssoToken) ∨ (∀ ssoToken, a ≠ Alogin ssoToken).
Proof. destruct a; [left; by eexists | right; done..]. Qed.

(** Every action but [login] keeps the legacy header objects and the
    stored token. *)
Lemma perform_legacyPart (a : action) (w : World) :
  (∀ ssoToken, a ≠ Alogin ssoToken) →
  legacyPart (globals (perform' a w)) = legacyPart (globals w).
Proof.
  intros Ha. destruct a; cbn [perform].
  - by destruct (Ha ssoToken).
  - apply telescopeLogin_legacyPart.
  - reflexivity.
  - reflexivity.
  - apply sendRequest_legacyPart.
  - apply sendPostRequest_legacyPart.
  - apply sendTelescopeRequest_legacyPart.
Qed.

(** X11. In every world the module can be in, the two legacy header
    objects agree with each other and with the stored token: before any
    accepted login they hold the initial cookie and no credential, afterwards
    the credentials of the token stored last; and a stored token is never
    blank. *)
Theorem header_objects_hold_the_stored_token (w : World) :
  reachable' w → holds_stored_token (globals w).
Proof.
  induction 1 as [|w a Hw [IHk IHt]].
  { split; [|done]. intros k Hk. unfold loginKeys in Hk. rewrite !elem_of_cons in Hk.
    destruct Hk as [->|[->|[->|[->|[->|[->|Hk]]]]]]; [by split..|by inversion Hk]. }
  destruct (action_login_or_not a) as [[tok ->] | Hother].
  - cbn [perform]. destruct (decide (trim tok = [])) as [Hb | Hnb].
    + rewrite (login_blank tok w Hb). by split.
    + rewrite (login_nonblank tok w Hnb). cbn [snd globals]. split.
      * intros k Hk. cbn [baseHeaders basePostHeaders baseSsoToken].
        rewrite !lookup_withCredentials, (bool_decide_eq_true_2 _ Hk).
        unfold credentials_of. by rewrite (trim_nonempty _ Hnb).
      * done.
  - assert (Hpart : legacyPart (globals (perform' a w)) = legacyPart (globals w)).
    { by apply perform_legacyPart. }
    injection Hpart as Hb Hp Ht. unfold holds_stored_token.
    rewrite Hb, Hp, Ht. by split.
Qed.



(** The wire only grows. *)
Lemma perform_wire (a : action) (w : World) :
  ∃ sent : list Request, wire (perform' a w) = wire w ++ sent.
Proof.
  destruct a; cbn [perform].
  - exists []. rewrite app_nil_r. unfold login. by case_match.
  - unfold telescopeLogin. unfold_M. unfold request, json. unfold_M.
    destruct (negb (truthy username) || negb (truthy password));
      [exists []; by rewrite app_nil_r|].
    eexists [_]. repeat (case_match; simplify_eq/=); reflexivity.
  - exists []. by rewrite app_nil_r.
  - exists []. by rewrite app_nil_r.
  - destruct (loggedIn (globals w)) eqn:Hin.
    + eexists [_]. by apply sendRequest_wire.
    + exists []. rewrite app_nil_r. unfold sendRequest. unfold_M. by rewrite Hin.
  - destruct (loggedIn (globals w)) eqn:Hin.
    + eexists [_]. by apply sendPostRequest_wire.
    + exists []. rewrite app_nil_r. unfold sendPostRequest. unfold_M. by rewrite Hin.
  - destruct (loggedIn (globals w)) eqn:Hin.
    + eexists [_]. by apply sendTelescopeRequest_wire.
    + exists []. rewrite app_nil_r. unfold sendTelescopeRequest. unfold_M. by rewrite Hin.
Qed.

(** X13. Nothing is sent before a login: in every world the module can be
    in, as long as no token is stored and no call to the telescope login
    endpoint is on the wire, the wire is empty and the module is not logged
    in.  No method reaches either backend before some login was accepted or
    attempted. *)
Theorem nothing_is_sent_before_a_login (w : World) :
  reachable' w →
  baseSsoToken (globals w) = [] →
  (∀ r : Request, In r (wire w) → req_url r ≠ telescope_login_endpoint) →
  wire w = [] ∧ loggedIn (globals w) = false.
Proof.
  induction 1 as [|w a Hw IH]; [done|].
  intros Htok Hwire.
  destruct (perform_wire a w) as [sent Hsent].
  assert (Hbefore : baseSsoToken (globals w) = []).
  { destruct (action_login_or_not a) as [[tok ->] | Hother].
    - cbn [perform] in Htok. destruct (decide (trim tok = [])) as [Hb | Hnb].
      + by rewrite (login_blank tok w Hb) in Htok.
      + rewrite (login_nonblank tok w Hnb) in Htok. cbn in Htok. subst tok. done.
    - assert (Hpart : legacyPart (globals (perform' a w)) = legacyPart (globals w)).
      { by apply perform_legacyPart. }
      injection Hpart as _ _ Ht. by rewrite <- Ht. }
  destruct IH as [Hempty Hout]; [exact Hbefore | |].
  { intros r Hr. apply Hwire. rewrite Hsent. apply in_or_app. by left. }
  destruct a; cbn [perform] in *.
  - destruct (decide (trim ssoToken = [])) as [Hb | Hnb].
    + by rewrite (login_blank ssoToken w Hb).
    + rewrite (login_nonblank ssoToken w Hnb) in Htok. cbn in Htok. subst ssoToken. done.
  - destruct username as [|u us]; [done|]. destruct password as [|p ps]; [done|].
    exfalso.
    pose proof (telescopeLogin_wire umbrella_accessToken error_msg upstream
                  (u :: us) (p :: ps) w) as Hcall.
    specialize (Hcall ltac:(done) ltac:(done)).
    apply (Hwire (telescopeLoginCall (globals w) (u :: us) (p :: ps))); [|done].
    rewrite Hcall. apply in_or_app. right. by left.
  - done.
  - done.
  - unfold sendRequest. unfold_M. by rewrite Hout.
  - unfold sendPostRequest. unfold_M. by rewrite Hout.
  - unfold sendTelescopeRequest. unfold_M. by rewrite Hout.
Qed.

End Invariants.

Lemma header_objects_hold_the_stored_token_witness :
  let quiet := (λ _ : unit, @None jsstring) in
  let w := perform quiet quiet (answering 401 None) (AtelescopeLogin (lit "u") (lit "p"))
             (perform quiet quiet (answering 401 None) (Alogin (lit "TOK")) initialWorld) in
  reachable quiet quiet (answering 401 None) w
  ∧ baseSsoToken (globals w) = lit "TOK"
  ∧ loggedIn (globals w) = false
  ∧ holds_stored_token (globals w).
Proof.
  intros quiet w.
  assert (Hw : reachable quiet quiet (answering 401 None) w).
  { do 2 apply reachable_perform. apply reachable_initial. }
  split; [exact Hw|]. split; [reflexivity|]. split; [reflexivity|].
  exact (header_objects_hold_the_stored_token quiet quiet (answering 401 None) w Hw).
Defined.


Lemma nothing_is_sent_before_a_login_witness :
  let quiet := (λ _ : unit, @None jsstring) in
  let w := perform quiet quiet always_ok (AsendTelescopeRequest (lit "/x"))
             (perform quiet quiet always_ok (AtelescopeLogin (lit "user") [])
                (perform quiet quiet always_ok (Alogin (lit "  ")) initialWorld)) in
  reachable quiet quiet always_ok w
  ∧ baseSsoToken (globals w) = []
  ∧ (∀ r : Request, In r (wire w) → req_url r ≠ telescope_login_endpoint)
  ∧ wire w = [] ∧ loggedIn (globals w) = false.
Proof.
  intros quiet w.
  assert (Hw : reachable quiet quiet always_ok w).
  { do 3 apply reachable_perform. apply reachable_initial. }
  assert (Ht : baseSsoToken (globals w) = []) by reflexivity.
  assert (Hno : ∀ r : Request, In r (wire w) → req_url r ≠ telescope_login_endpoint).
  { intros r Hr. vm_compute in Hr. destruct Hr. }
  split; [exact Hw|]. split; [exact Ht|]. split; [exact Hno|].
  exact (nothing_is_sent_before_a_login quiet quiet always_ok w Hw Ht Hno).
Defined.

(** ** What goes out after a legacy login *)

Section AfterLogin.
Context {JSON : Type}.
Variable umbrella_accessToken : JSON → option jsstring.
Variable error_msg : JSON → option jsstring.
Variable upstream : list Request → Request → option (Response JSON).

Local Abbreviation telescopeLogin' := (telescopeLogin umbrella_accessToken error_msg upstream).

Lemma login_loggedIn (ssoToken : jsstring) (w : World) :
  trim ssoToken ≠ [] → loggedIn (globals (snd (login ssoToken w))) = true.
Proof. intros H. by rewrite (login_nonblank ssoToken w H). Qed.

Lemma login_wire (ssoToken : jsstring) (w : World) :
  wire (snd (login ssoToken w)) = wire w.
Proof. unfold login. by case_match. Qed.

(** X14. After a login with a non-blank token, in any world, the next
    legacy call carries that token: a GET of [sendRequest] and a POST of
    [sendPostRequest] go to the legacy base, the API path and the given path,
    with the XSRF tokens, the three token headers and the login cookie of that
    token, the POST with its data as body.  [USER.eventFeed] and
    [USER.loggedInIdentities] put the token itself, as given, at the end of
    their paths. *)
Theorem legacy_calls_carry_the_token (ssoToken url data : jsstring) (w : World) :
  trim ssoToken ≠ [] →
  ∃ get post : Request,
    wire (snd (sendRequest upstream url (snd (login ssoToken w)))) = wire w ++ [get]
    ∧ wire (snd (sendPostRequest upstream url data (snd (login ssoToken w))))
      = wire w ++ [post]
    ∧ (req_method get = GET ∧ req_url get = baseUrl ++ apiPath ++ url
       ∧ req_body get = None)
    ∧ (req_method post = POST ∧ req_url post = baseUrl ++ apiPath ++ url
       ∧ req_body post = Some data)
    ∧ (∀ k : string, k ∈ loginKeys →
         req_headers get !! k = Some (credential ssoToken k)
         ∧ req_headers post !! k = Some (credential ssoToken k))
    ∧ wire (snd (USER.eventFeed upstream (snd (login ssoToken w))))
      = wire w ++ [legacyGet (globals (snd (login ssoToken w)))
                     (lit "/userfeed/v1/friendFeed/rendered/en/" ++ ssoToken)]
    ∧ wire (snd (USER.loggedInIdentities upstream (snd (login ssoToken w))))
      = wire w ++ [legacyGet (globals (snd (login ssoToken w)))
                     (lit "/crm/cod/v2/identities/" ++ ssoToken)].
Proof.
  intros Htrim.
  pose proof (login_loggedIn ssoToken w Htrim) as Hin.
  pose proof (login_wire ssoToken w) as Hwire.
  exists (legacyGet (globals (snd (login ssoToken w))) url),
         (legacyPost (globals (snd (login ssoToken w))) url data).
  split; [by rewrite (sendRequest_wire upstream url _ Hin), Hwire|].
  split; [by rewrite (sendPostRequest_wire upstream url data _ Hin), Hwire|].
  split; [done|]. split; [done|]. split.
  - intros k Hk. unfold legacyGet, legacyPost. cbn [req_headers].
    rewrite (login_nonblank ssoToken w Htrim). cbn [snd globals baseHeaders basePostHeaders].
    by rewrite !lookup_withCredentials, (bool_decide_eq_true_2 _ Hk).
  - assert (Htok : baseSsoToken (globals (snd (login ssoToken w))) = ssoToken).
    { by rewrite (login_nonblank ssoToken w Htrim). }
    unfold USER.eventFeed, USER.loggedInIdentities, Endpoint.eventFeed,
      Endpoint.loggedInIdentities.
    split.
    + transitivity (wire (snd (sendRequest upstream
                     (lit "/userfeed/v1/friendFeed/rendered/en/" ++ ssoToken)
                     (snd (login ssoToken w))))).
      * unfold_M. cbn [fst snd]. by rewrite Htok.
      * by rewrite (sendRequest_wire upstream _ _ Hin), Hwire.
    + transitivity (wire (snd (sendRequest upstream
                     (lit "/crm/cod/v2/identities/" ++ ssoToken)
                     (snd (login ssoToken w))))).
      * unfold_M. cbn [fst snd]. by rewrite Htok.
      * by rewrite (sendRequest_wire upstream _ _ Hin), Hwire.
Qed.

(** X15. The telescope login call carries the legacy credentials: after a
    login with a non-blank token, a telescope login with both credentials
    given sends its POST to the login endpoint with the legacy header object,
    and so with the XSRF tokens, the three token headers and the login
    cookie of the SSO token. *)
Theorem telescope_login_call_carries_the_legacy_token
    (ssoToken username password : jsstring) (w : World) :
  trim ssoToken ≠ [] → username ≠ [] → password ≠ [] →
  ∃ r : Request,
    wire (snd (telescopeLogin' username password (snd (login ssoToken w))))
    = wire w ++ [r]
    ∧ req_method r = POST
    ∧ req_url r = telescope_login_endpoint
    ∧ req_body r = Some (telescopeLoginBody username password)
    ∧ ∀ k : string, k ∈ loginKeys → req_headers r !! k = Some (credential ssoToken k).
Proof.
  intros Htrim Hu Hp.
  exists (telescopeLoginCall (globals (snd (login ssoToken w))) username password).
  pose proof (telescopeLogin_wire umbrella_accessToken error_msg upstream
                username password (snd (login ssoToken w)) Hu Hp) as Hcall.
  split; [by rewrite Hcall, login_wire|].
  split; [done|]. split; [done|]. split; [done|].
  intros k Hk. unfold telescopeLoginCall. cbn [req_headers].
  rewrite (login_nonblank ssoToken w Htrim). cbn [snd globals baseHeaders].
  by rewrite lookup_withCredentials, (bool_decide_eq_true_2 _ Hk).
Qed.

End AfterLogin.

Lemma legacy_calls_carry_the_token_witness :
  trim (lit "TOK") ≠ []
  ∧ ∃ get post : Request,
      wire (snd (sendRequest always_ok (lit "/x") (snd (login (lit "TOK") initialWorld))))
      = [get]
      ∧ wire (snd (sendPostRequest always_ok (lit "/x") (lit "{}")
                     (snd (login (lit "TOK") initialWorld))))
        = [post]
      ∧ req_headers get !! "Atvi-Auth"%string = Some (lit "TOK")
      ∧ req_headers post !! "cookie"%string = Some (loginCookie (lit "TOK")).
Proof.
  assert (H : trim (lit "TOK") ≠ []) by (vm_compute; discriminate).
  split; [exact H|].
  destruct (legacy_calls_carry_the_token always_ok (lit "TOK") (lit "/x") (lit "{}")
              initialWorld H)
    as (get & post & Hg & Hp & _ & _ & Hk & _).
  exists get, post. split; [exact Hg|]. split; [exact Hp|].
  split.
  - apply (Hk "Atvi-Auth"%string). unfold loginKeys. rewrite !elem_of_cons. tauto.
  - apply (Hk "cookie"%string). unfold loginKeys. rewrite !elem_of_cons. tauto.
Defined.

Lemma telescope_login_call_carries_the_legacy_token_witness :
  let quiet := (λ _ : unit, @None jsstring) in
  trim (lit "TOK") ≠ [] ∧ lit "user" ≠ [] ∧ lit "pass" ≠ []
  ∧ ∃ r : Request,
      wire (snd (telescopeLogin quiet quiet always_ok (lit "user") (lit "pass")
                   (snd (login (lit "TOK") initialWorld))))
      = [r]
      ∧ req_url r = telescope_login_endpoint
      ∧ req_headers r !! "atkn"%string = Some (lit "TOK").
Proof.
  intros quiet.
  assert (H : trim (lit "TOK") ≠ []) by (vm_compute; discriminate).
  assert (Hu : lit "user" ≠ []) by discriminate.
  assert (Hp : lit "pass" ≠ []) by discriminate.
  split; [exact H|]. split; [exact Hu|]. split; [exact Hp|].
  destruct (telescope_login_call_carries_the_legacy_token quiet quiet always_ok
              (lit "TOK") (lit "user") (lit "pass") initialWorld H Hu Hp)
    as (r & Hw & _ & Hurl & _ & Hk).
  exists r. split; [exact Hw|]. split; [exact Hurl|].
  apply (Hk "atkn"%string). unfold loginKeys. rewrite !elem_of_cons. tauto.
Defined.

(** ** More on the templates and on the methods without a handle *)

(** X16. The detailed match paths are the breakdown paths with /details
    appended, plain and dated alike, and the dated breakdown path on the
    window (0, 0) is the plain breakdown path. *)
Theorem details_paths_extend_breakdown_paths
    (this : Endpoints) (startTime endTime : Z) :
  Endpoint.combatHistory this = Endpoint.breakdown this ++ lit "/details"
  ∧ Endpoint.combatHistoryWithDate this startTime endTime
    = Endpoint.breakdownWithDate this startTime endTime ++ lit "/details"
  ∧ Endpoint.breakdownWithDate this 0 0 = Endpoint.breakdown this.
Proof.
  unfold Endpoint.combatHistory, Endpoint.breakdown, Endpoint.combatHistoryWithDate,
    Endpoint.breakdownWithDate.
  change (number_toString 0) with (lit "0").
  repeat split; rewrite <- ?app_assoc; reflexivity.
Qed.

(** Resolution of the empty handle looks at the platform only. *)
Lemma mapGamertagToPlatform_no_handle (p : jsstring) :
  In p platforms.values → p ≠ platforms.Steam →
  mapGamertagToPlatform [] p false
  = Normal (mkIdentity [] (wirePlatform p) (handleLookupType p)).
Proof.
  intros Hin Hs. cbn [platforms.values In] in Hin.
  destruct Hin as [<-|[<-|[<-|[<-|[<-|[<-|[<-|[<-|[<-|[]]]]]]]]]];
    first [reflexivity | done].
Qed.

(** X17. The methods that take no handle, [matchInfo], [mapList] and
    [SHOP.battlePassLoot], check the platform only: on every platform of the
    enumeration but [steam] they reach the dispatcher, also on [uno], where a
    handle would have to be numerical; the path has [uno] for [acti] and the
    platform itself otherwise. *)
Theorem methods_without_a_handle_check_the_platform_only
    (JSON : Type) (upstream : list Request → Request → option (Response JSON))
    (game mode matchId p : jsstring) (season : Z) :
  In p platforms.values → p ≠ platforms.Steam →
  title_matchInfo upstream game mode matchId p
  = sendRequest upstream
      (lit "/crm/cod/v2/title/" ++ game ++ lit "/platform/" ++ wirePlatform p ++
       lit "/fullMatch/wz/" ++ matchId ++ lit "/en")
  ∧ title_mapList upstream game mode p
    = sendRequest upstream
        (lit "/ce/v1/title/" ++ game ++ lit "/platform/" ++ wirePlatform p ++
         lit "/gameType/" ++ mode ++ lit "/communityMapData/availability")
  ∧ SHOP.battlePassLoot upstream game season p
    = sendRequest upstream
        (lit "/loot/title/" ++ game ++ lit "/platform/" ++ wirePlatform p ++
         lit "/list/loot_season_" ++ number_toString season ++ lit "/en").
Proof.
  intros Hin Hs.
  pose proof (mapGamertagToPlatform_no_handle p Hin Hs) as H.
  unfold title_matchInfo, title_mapList, SHOP.battlePassLoot, withIdentity.
  rewrite H. repeat split.
Qed.

Lemma methods_without_a_handle_check_the_platform_only_witness :
  In platforms.Uno platforms.values ∧ platforms.Uno ≠ platforms.Steam
  ∧ MW.matchInfo always_ok (lit "42") platforms.Uno
    = sendRequest always_ok (lit "/crm/cod/v2/title/mw/platform/uno/fullMatch/wz/42/en")
  ∧ MW.mapList always_ok platforms.Activision
    = sendRequest always_ok
        (lit "/ce/v1/title/mw/platform/uno/gameType/mp/communityMapData/availability").
Proof.
  assert (Hu : In platforms.Uno platforms.values) by (vm_compute; tauto).
  assert (Ha : In platforms.Activision platforms.values) by (vm_compute; tauto).
  split; [exact Hu|]. split; [discriminate|]. split.
  - exact (proj1 (methods_without_a_handle_check_the_platform_only unit always_ok
                    games.ModernWarfare modes.Multiplayer (lit "42") platforms.Uno 0%Z
                    Hu ltac:(discriminate))).
  - exact (proj1 (proj2 (methods_without_a_handle_check_the_platform_only unit always_ok
                    games.ModernWarfare modes.Multiplayer [] platforms.Activision 0%Z
                    Ha ltac:(discriminate)))).
Defined.

(** X18. On the platforms whose handles are not escaped ([psn], [xbl],
    [ios], [all], [_]), the handle goes into the path exactly as given,
    slashes, hashes and spaces included, with lookup kind [gamer]: shown for
    the full-data path of a title and for the search path. *)
Theorem handles_elsewhere_go_out_as_given
    (JSON : Type) (upstream : list Request → Request → option (Response JSON))
    (game mode g p : jsstring) :
  In p platforms.values →
  p ≠ platforms.Uno → p ≠ platforms.Activision → p ≠ platforms.Battlenet →
  p ≠ platforms.Steam →
  mapGamertagToPlatform g p false = Normal (mkIdentity g p (lit "gamer"))
  ∧ title_fullData upstream game mode g p
    = sendRequest upstream
        (lit "/stats/cod/v1/title/" ++ game ++ lit "/platform/" ++ p ++ lit "/gamer/" ++
         g ++ lit "/profile/type/" ++ mode)
  ∧ ALT.search upstream g p
    = sendRequest upstream
        (lit "/crm/cod/v2/platform/" ++ p ++ lit "/username/" ++ g ++ lit "/search").
Proof.
  intros Hin Hu Ha Hb Hs.
  assert (H : ∀ ss, mapGamertagToPlatform g p ss = Normal (mkIdentity g p (lit "gamer"))).
  { intros ss. by apply mapGamertagToPlatform_plain. }
  split; [apply H|].
  unfold title_fullData, ALT.search, withIdentity. rewrite !H.
  split; unfold_M; cbn [fst snd]; unfold Endpoint.fullData, Endpoint.search;
    cbn [ep_game ep_gamertag ep_platform ep_mode ep_lookupType];
    by rewrite <- ?app_assoc.
Qed.

Lemma handles_elsewhere_go_out_as_given_witness :
  In platforms.PSN platforms.values
  ∧ mapGamertagToPlatform (lit "a/b #1") platforms.PSN false
    = Normal (mkIdentity (lit "a/b #1") platforms.PSN (lit "gamer"))
  ∧ MW.fullData always_ok (lit "a/b #1") platforms.PSN
    = sendRequest always_ok
        (lit "/stats/cod/v1/title/mw/platform/psn/gamer/a/b #1/profile/type/mp").
Proof.
  assert (Hin : In platforms.PSN platforms.values) by (vm_compute; tauto).
  split; [exact Hin|].
  destruct (handles_elsewhere_go_out_as_given unit always_ok games.ModernWarfare
              modes.Multiplayer (lit "a/b #1") platforms.PSN Hin)
    as (Hres & Hfull & _); try discriminate.
  split; [exact Hres | exact Hfull].
Defined.
